(** * Clair configuration loader ([pkg/config/config.go])

    A shallow embedding of package [config]: the configuration records,
    [DefaultConfig] and [LoadConfig], together with the parts of the
    packages it calls ([os], [io/ioutil], [gopkg.in/yaml.v2],
    [fernet-go], [encoding/base64], [time]) that its behaviour depends on.

    What depends on the machine or on code outside the package is gathered
    in a record [World]: the file system, the environment, the random
    source, the YAML text parser, [time.ParseDuration] and
    [fernet.DecodeKey].  [LoadConfig] is a function of a world and a path;
    it yields an outcome (the two results, or a panic) and the trace of the
    system operations it performed. *)

From Stdlib Require Import List String Ascii ZArith NArith Lia Bool.
From Stdlib.Strings Require Import Byte.
Import ListNotations.

Set Warnings "-register-all".

Local Open Scope string_scope.
Local Open Scope Z_scope.

(* ================================================================= *)
(** * Part I: the program *)

(** ** Results of calls that can fail outside the package *)

Inductive res (A : Type) : Type :=
| ok (a : A)
| fail (msg : string).
Arguments ok {A} a.
Arguments fail {A} msg.

(** Go's [error] values that can flow through [LoadConfig].  Go compares
    errors by identity; an error made by [errors.New] in package [config]
    is therefore never equal to one made inside another package, which the
    constructors keep apart. *)
Inductive error : Type :=
| errorString (s : string)        (* errors.New(s), package config *)
| PathError (msg : string)        (* os.Open *)
| ReadError (msg : string)        (* ioutil.ReadAll *)
| yamlError (msg : string)        (* yaml: syntax error in the text *)
| TypeError (errors : list string) (* *yaml.TypeError *)
| randError (msg : string).       (* crypto/rand, through Key.Generate *)

Definition newline : string := String (ascii_of_nat 10) "".

(** The [Error] method. *)
Definition Error (e : error) : string :=
  match e with
  | errorString s => s
  | PathError msg => msg
  | ReadError msg => msg
  | yamlError msg => msg
  | TypeError errs =>
      "yaml: unmarshal errors:" ++ newline ++ "  "
        ++ String.concat (newline ++ "  ") errs
  | randError msg => msg
  end.

(** ** package time *)

Module time.
(** [type Duration int64], a count of nanoseconds. *)
Definition Duration := Z.
Definition Nanosecond : Duration := 1.
Definition Microsecond : Duration := 1000 * Nanosecond.
Definition Millisecond : Duration := 1000 * Microsecond.
Definition Second : Duration := 1000 * Millisecond.
Definition Minute : Duration := 60 * Second.
Definition Hour : Duration := 60 * Minute.
End time.

(** Go's [int] on a 64-bit platform. *)
Definition fits_int (z : Z) : bool := (- 2 ^ 63 <=? z) && (z <? 2 ^ 63).

(** ** package encoding/base64, the URL-safe alphabet with padding *)

Module base64.
Local Open Scope N_scope.

Definition encodeURL : string :=
  "ABCDEFGHIJKLMNOPQRSTUVWXYZabcdefghijklmnopqrstuvwxyz0123456789-_".
Definition StdPadding : ascii := "="%char.

(** [enc.encode[i]] *)
Definition encode (i : N) : ascii :=
  nth (N.to_nat i) (list_ascii_of_string encodeURL) Ascii.zero.

Fixpoint index (c : ascii) (l : list ascii) (i : N) : option N :=
  match l with
  | [] => None
  | x :: l' => if Ascii.eqb x c then Some i else index c l' (N.succ i)
  end.

(** [enc.decodeMap[c]], with [None] for the entries that hold 0xFF. *)
Definition decodeMap (c : ascii) : option N :=
  index c (list_ascii_of_string encodeURL) 0.

(** [uint(b)] and [byte(v)]. *)
Definition uint (b : byte) : N := Byte.to_N b.
Definition to_byte (v : N) : byte :=
  match Byte.of_N (N.land v (N.ones 8)) with
  | Some b => b
  | None => x00
  end.

(** [val>>shift&0x3F] and the character for it. *)
Definition six (val shift : N) : N := N.land (N.shiftr val shift) (N.ones 6).
Definition sextet (val shift : N) : ascii := encode (six val shift).

(** [Encoding.Encode]: three source bytes make four characters; a last
    group of one or two bytes is padded. *)
Fixpoint Encode (src : list byte) : list ascii :=
  match src with
  | [] => []
  | [a] =>
      let val := N.shiftl (uint a) 16 in
      [sextet val 18; sextet val 12; StdPadding; StdPadding]
  | [a; b] =>
      let val := N.lor (N.shiftl (uint a) 16) (N.shiftl (uint b) 8) in
      [sextet val 18; sextet val 12; sextet val 6; StdPadding]
  | a :: b :: c :: rest =>
      let val :=
        N.lor (N.lor (N.shiftl (uint a) 16) (N.shiftl (uint b) 8)) (uint c) in
      sextet val 18 :: sextet val 12 :: sextet val 6 :: sextet val 0
        :: Encode rest
  end.

Definition EncodeToString (src : list byte) : string :=
  string_of_list_ascii (Encode src).

Definition quantum (s0 s1 s2 s3 : N) : N :=
  N.lor (N.lor (N.lor (N.shiftl s0 18) (N.shiftl s1 12)) (N.shiftl s2 6)) s3.

(** Decoding of a padded text, four characters at a time; padding is
    accepted in the last group only.  (No line breaks are skipped.) *)
Fixpoint Decode (src : list ascii) : option (list byte) :=
  match src with
  | [] => Some []
  | c0 :: c1 :: c2 :: c3 :: rest =>
      match decodeMap c0, decodeMap c1 with
      | Some s0, Some s1 =>
          if Ascii.eqb c2 StdPadding then
            if Ascii.eqb c3 StdPadding then
              match rest with
              | [] => Some [to_byte (N.shiftr (quantum s0 s1 0 0) 16)]
              | _ => None
              end
            else None
          else
            match decodeMap c2 with
            | Some s2 =>
                if Ascii.eqb c3 StdPadding then
                  match rest with
                  | [] =>
                      let val := quantum s0 s1 s2 0 in
                      Some [to_byte (N.shiftr val 16); to_byte (N.shiftr val 8)]
                  | _ => None
                  end
                else
                  match decodeMap c3 with
                  | Some s3 =>
                      let val := quantum s0 s1 s2 s3 in
                      match Decode rest with
                      | Some out =>
                          Some (to_byte (N.shiftr val 16)
                                  :: to_byte (N.shiftr val 8)
                                  :: to_byte val :: out)
                      | None => None
                      end
                  | None => None
                  end
            | None => None
            end
      | _, _ => None
      end
  | _ => None
  end.

Definition DecodeString (s : string) : option (list byte) :=
  Decode (list_ascii_of_string s).
End base64.

(** ** package fernet: keys *)

Module fernet.
(** [type Key [32]byte] *)
Definition Key := list byte.
Definition KeyLen : nat := 32.

(** [Key.Generate] fills the 32 bytes of the key from the random source,
    here the stream [r] of the bytes that source delivers. *)
Definition fill (r : nat -> byte) : Key := map r (seq 0 KeyLen).

(** [Key.Encode]: the URL-safe base64 encoding of the key. *)
Definition Encode (k : Key) : string := base64.EncodeToString k.
End fernet.

(** ** package yaml: documents and decoding into Go values *)

Module yaml.
(** What [resolve] makes of a scalar: its implicit type.  (Floats,
    timestamps and binary scalars are not represented.) *)
Inductive resolved : Type :=
| RNull
| RBool (b : bool)
| RInt (z : Z)
| RStr.

(** The node tree the parser builds for a document.  A mapping holds its
    entries in document order; keys are scalars, given by their text.
    (Anchors, aliases and merge keys are not represented.) *)
Inductive node : Type :=
| scalarNode (value : string) (r : resolved)
| mappingNode (children : list (string * node))
| sequenceNode (children : list node).

Definition tag (n : node) : string :=
  match n with
  | scalarNode _ RNull => "!!null"
  | scalarNode _ (RBool _) => "!!bool"
  | scalarNode _ (RInt _) => "!!int"
  | scalarNode _ RStr => "!!str"
  | mappingNode _ => "!!map"
  | sequenceNode _ => "!!seq"
  end.

(** [d.terror]: the message appended to [d.terrors] (without the line
    number and the excerpt of the value that the library adds). *)
Definition terror (n : node) (ty : string) : string :=
  "cannot unmarshal " ++ tag n ++ " into " ++ ty.

(** [d.unmarshal(n, out)] for a target of type [A]: the new content of
    the target and the type errors the call appends. *)
Definition decoder (A : Type) : Type := node -> A -> A * list string.

Section Scalars.
Variable ParseDuration : string -> option time.Duration.

(** A null scalar sets the target to its zero value, whatever its
    type; other scalars must fit the kind of the target. *)
Definition unmarshal_string : decoder string := fun n out =>
  match n with
  | scalarNode _ RNull => (EmptyString, [])
  | scalarNode value _ => (value, [])
  | _ => (out, [terror n "string"])
  end.

Definition unmarshal_bool : decoder bool := fun n out =>
  match n with
  | scalarNode _ RNull => (false, [])
  | scalarNode _ (RBool b) => (b, [])
  | _ => (out, [terror n "bool"])
  end.

Definition unmarshal_int : decoder Z := fun n out =>
  match n with
  | scalarNode _ RNull => (0, [])
  | scalarNode _ (RInt z) =>
      if fits_int z then (z, []) else (out, [terror n "int"])
  | _ => (out, [terror n "int"])
  end.

(** A [time.Duration] target takes an integer as it is (nanoseconds)
    and a string through [time.ParseDuration]. *)
Definition unmarshal_Duration : decoder time.Duration := fun n out =>
  match n with
  | scalarNode _ RNull => (0, [])
  | scalarNode _ (RInt z) =>
      if fits_int z then (z, []) else (out, [terror n "time.Duration"])
  | scalarNode value RStr =>
      match ParseDuration value with
      | Some d => (d, [])
      | None => (out, [terror n "time.Duration"])
      end
  | _ => (out, [terror n "time.Duration"])
  end.
End Scalars.

Section Structs.
Context {S : Type}.
(** The struct's zero value, its type name, and what a mapping entry
    does to it: the field named by the key is decoded from the value;
    a key that names no field changes nothing. *)
Variable zero : S.
Variable ty : string.
Variable field : string -> node -> S -> S * list string.

(** [d.mappingStruct]: the entries are applied in document order. *)
Fixpoint mappingStruct (children : list (string * node)) (out : S)
  : S * list string :=
  match children with
  | [] => (out, [])
  | (key, value) :: rest =>
      let (out1, errs1) := field key value out in
      let (out2, errs2) := mappingStruct rest out1 in
      (out2, (errs1 ++ errs2)%list)
  end.

(** A struct held by value. *)
Definition unmarshal_struct : decoder S := fun n out =>
  match n with
  | scalarNode _ RNull => (zero, [])
  | mappingNode children => mappingStruct children out
  | _ => (out, [terror n ty])
  end.

(** A struct behind a pointer ([None] is nil): null makes the pointer
    nil; for any other node [d.prepare] allocates a zero struct when
    the pointer is nil and decoding goes on in the struct pointed to. *)
Definition unmarshal_ptr : decoder (option S) := fun n out =>
  match n with
  | scalarNode _ RNull => (None, [])
  | mappingNode children =>
      let (s, errs) :=
        mappingStruct children
          (match out with Some s => s | None => zero end) in
      (Some s, errs)
  | _ =>
      (Some (match out with Some s => s | None => zero end),
       [terror n ty])
  end.
End Structs.
End yaml.

(** ** package os: file handles, and the operations that are observed *)

Module os.
Definition File := nat.
End os.

Inductive event : Type :=
| EvOpen (name : string)
| EvReadAll (f : os.File)
| EvClose (f : os.File)
| EvRandRead.

(** ** The world outside the package *)

Record World : Type := {
  ExpandEnv : string -> string;                      (* os.ExpandEnv *)
  Open : string -> res os.File;                      (* os.Open *)
  ReadAll : os.File -> res (list byte);              (* ioutil.ReadAll *)
  parse : list byte -> res (option yaml.node);       (* yaml: text to node; no node for an empty text *)
  ParseDuration : string -> option time.Duration;    (* time.ParseDuration *)
  Reader : res (nat -> byte);                        (* crypto/rand.Reader *)
  DecodeKey : string -> res fernet.Key               (* fernet.DecodeKey *)
}.

(** [Key.Generate] in a world. *)
Definition Generate (w : World) : res fernet.Key :=
  match Reader w with
  | ok r => ok (fernet.fill r)
  | fail msg => fail msg
  end.


(** ** package database and package notification: the configuration types *)

Module database.
(** Modelled from the spec: [database.RegistrableComponentConfig], declared
    in package [database], outside the file at hand.  The spec gives it a
    store-type discriminator (the [Type] field that [DefaultConfig] sets;
    [Type_] here, [Type] being reserved) and backend-specific connection
    parameters, kept as the document gives them. *)
Record RegistrableComponentConfig : Type := {
  Type_ : string;
  Params : list (string * yaml.node)
}.

Definition zero : RegistrableComponentConfig :=
  {| Type_ := ""; Params := [] |}.

Fixpoint set_param (key : string) (value : yaml.node)
  (ps : list (string * yaml.node)) : list (string * yaml.node) :=
  match ps with
  | [] => [(key, value)]
  | (k, v) :: rest =>
      if String.eqb k key then (key, value) :: rest
      else (k, v) :: set_param key value rest
  end.

(** Modelled from the spec: the document's [database] block holds the type
    discriminator under [type] and connection fields under any other key. *)
Definition field (key : string) (n : yaml.node)
  (c : RegistrableComponentConfig) : RegistrableComponentConfig * list string :=
  if String.eqb key "type" then
    let (v, errs) := yaml.unmarshal_string n (Type_ c) in
    ({| Type_ := v; Params := Params c |}, errs)
  else
    ({| Type_ := Type_ c; Params := set_param key n (Params c) |}, []).
End database.

Module notification.
(** Modelled from the spec: [notification.Config], declared in package
    [ext/notification], outside the file at hand.  The spec gives it a
    retry-attempt count and a re-notify interval, under the document keys
    [attempts] and [renotifyinterval]. *)
Record Config : Type := {
  Attempts : Z;
  RenotifyInterval : time.Duration
}.

Definition zero : Config := {| Attempts := 0; RenotifyInterval := 0 |}.

Definition field (ParseDuration : string -> option time.Duration)
  (key : string) (n : yaml.node) (c : Config) : Config * list string :=
  if String.eqb key "attempts" then
    let (v, errs) := yaml.unmarshal_int n (Attempts c) in
    ({| Attempts := v; RenotifyInterval := RenotifyInterval c |}, errs)
  else if String.eqb key "renotifyinterval" then
    let (v, errs) :=
      yaml.unmarshal_Duration ParseDuration n (RenotifyInterval c) in
    ({| Attempts := Attempts c; RenotifyInterval := v |}, errs)
  else (c, []).
End notification.

(** ** package config *)

(** [ErrDatasourceNotLoaded] *)
Definition ErrDatasourceNotLoaded : error :=
  errorString "could not load configuration: no database source specified".

Record UpdaterConfig : Type := {
  Cron : string;
  Disabled : bool
}.

Record APIConfig : Type := {
  Port : Z;
  HealthPort : Z;
  Timeout : time.Duration;
  PaginationKey : string;
  CertFile : string;
  KeyFile : string;
  CAFile : string
}.

(** The three pointer fields are [None] when nil. *)
Record Config : Type := {
  Database : database.RegistrableComponentConfig;
  Updater : option UpdaterConfig;
  Notifier : option notification.Config;
  API : option APIConfig
}.

Record File : Type := {
  Clair : Config
}.

(** [DefaultConfig] *)
Definition DefaultConfig : Config := {|
  Database := {| database.Type_ := "pgsql"; database.Params := [] |};
  Updater := Some {| Cron := "@midnight"; Disabled := false |};
  API := Some {|
    Port := 6060;
    HealthPort := 6061;
    Timeout := 900 * time.Second;
    PaginationKey := "";
    CertFile := ""; KeyFile := ""; CAFile := ""
  |};
  Notifier := Some {|
    notification.Attempts := 5;
    notification.RenotifyInterval := 2 * time.Hour
  |}
|}.

(** *** What [yaml.Unmarshal] does to the structs of the package

    Fields without a tag are found under their lower-cased names. *)

Definition zero_UpdaterConfig : UpdaterConfig :=
  {| Cron := ""; Disabled := false |}.

Definition zero_APIConfig : APIConfig := {|
  Port := 0; HealthPort := 0; Timeout := 0; PaginationKey := "";
  CertFile := ""; KeyFile := ""; CAFile := ""
|}.

Definition zero_Config : Config := {|
  Database := database.zero; Updater := None; Notifier := None; API := None
|}.

Definition zero_File : File := {| Clair := zero_Config |}.

Definition field_UpdaterConfig (key : string) (n : yaml.node)
  (c : UpdaterConfig) : UpdaterConfig * list string :=
  if String.eqb key "cron" then
    let (v, errs) := yaml.unmarshal_string n (Cron c) in
    ({| Cron := v; Disabled := Disabled c |}, errs)
  else if String.eqb key "disabled" then
    let (v, errs) := yaml.unmarshal_bool n (Disabled c) in
    ({| Cron := Cron c; Disabled := v |}, errs)
  else (c, []).

Definition set_Port (v : Z) (c : APIConfig) : APIConfig :=
  {| Port := v; HealthPort := HealthPort c; Timeout := Timeout c;
     PaginationKey := PaginationKey c;
     CertFile := CertFile c; KeyFile := KeyFile c; CAFile := CAFile c |}.
Definition set_HealthPort (v : Z) (c : APIConfig) : APIConfig :=
  {| Port := Port c; HealthPort := v; Timeout := Timeout c;
     PaginationKey := PaginationKey c;
     CertFile := CertFile c; KeyFile := KeyFile c; CAFile := CAFile c |}.
Definition set_Timeout (v : time.Duration) (c : APIConfig) : APIConfig :=
  {| Port := Port c; HealthPort := HealthPort c; Timeout := v;
     PaginationKey := PaginationKey c;
     CertFile := CertFile c; KeyFile := KeyFile c; CAFile := CAFile c |}.
Definition set_PaginationKey (v : string) (c : APIConfig) : APIConfig :=
  {| Port := Port c; HealthPort := HealthPort c; Timeout := Timeout c;
     PaginationKey := v;
     CertFile := CertFile c; KeyFile := KeyFile c; CAFile := CAFile c |}.
Definition set_CertFile (v : string) (c : APIConfig) : APIConfig :=
  {| Port := Port c; HealthPort := HealthPort c; Timeout := Timeout c;
     PaginationKey := PaginationKey c;
     CertFile := v; KeyFile := KeyFile c; CAFile := CAFile c |}.
Definition set_KeyFile (v : string) (c : APIConfig) : APIConfig :=
  {| Port := Port c; HealthPort := HealthPort c; Timeout := Timeout c;
     PaginationKey := PaginationKey c;
     CertFile := CertFile c; KeyFile := v; CAFile := CAFile c |}.
Definition set_CAFile (v : string) (c : APIConfig) : APIConfig :=
  {| Port := Port c; HealthPort := HealthPort c; Timeout := Timeout c;
     PaginationKey := PaginationKey c;
     CertFile := CertFile c; KeyFile := KeyFile c; CAFile := v |}.

Section Unmarshal.
Variable w : World.

Definition field_APIConfig (key : string) (n : yaml.node) (c : APIConfig)
  : APIConfig * list string :=
  if String.eqb key "port" then
    let (v, errs) := yaml.unmarshal_int n (Port c) in (set_Port v c, errs)
  else if String.eqb key "healthport" then
    let (v, errs) := yaml.unmarshal_int n (HealthPort c) in
    (set_HealthPort v c, errs)
  else if String.eqb key "timeout" then
    let (v, errs) :=
      yaml.unmarshal_Duration (ParseDuration w) n (Timeout c) in
    (set_Timeout v c, errs)
  else if String.eqb key "paginationkey" then
    let (v, errs) := yaml.unmarshal_string n (PaginationKey c) in
    (set_PaginationKey v c, errs)
  else if String.eqb key "certfile" then
    let (v, errs) := yaml.unmarshal_string n (CertFile c) in
    (set_CertFile v c, errs)
  else if String.eqb key "keyfile" then
    let (v, errs) := yaml.unmarshal_string n (KeyFile c) in
    (set_KeyFile v c, errs)
  else if String.eqb key "cafile" then
    let (v, errs) := yaml.unmarshal_string n (CAFile c) in
    (set_CAFile v c, errs)
  else (c, []).

Definition field_Config (key : string) (n : yaml.node) (c : Config)
  : Config * list string :=
  if String.eqb key "database" then
    let (v, errs) :=
      yaml.unmarshal_struct database.zero
        "database.RegistrableComponentConfig" database.field n (Database c) in
    ({| Database := v; Updater := Updater c; Notifier := Notifier c;
        API := API c |}, errs)
  else if String.eqb key "updater" then
    let (v, errs) :=
      yaml.unmarshal_ptr zero_UpdaterConfig "config.UpdaterConfig"
        field_UpdaterConfig n (Updater c) in
    ({| Database := Database c; Updater := v; Notifier := Notifier c;
        API := API c |}, errs)
  else if String.eqb key "notifier" then
    let (v, errs) :=
      yaml.unmarshal_ptr notification.zero "notification.Config"
        (notification.field (ParseDuration w)) n (Notifier c) in
    ({| Database := Database c; Updater := Updater c; Notifier := v;
        API := API c |}, errs)
  else if String.eqb key "api" then
    let (v, errs) :=
      yaml.unmarshal_ptr zero_APIConfig "config.APIConfig"
        field_APIConfig n (API c) in
    ({| Database := Database c; Updater := Updater c; Notifier := Notifier c;
        API := v |}, errs)
  else (c, []).

(** [File] has the one field [Clair], tagged [yaml:"clair"]. *)
Definition field_File (key : string) (n : yaml.node) (f : File)
  : File * list string :=
  if String.eqb key "clair" then
    let (v, errs) :=
      yaml.unmarshal_struct zero_Config "config.Config" field_Config n
        (Clair f) in
    ({| Clair := v |}, errs)
  else (f, []).

(** [yaml.Unmarshal(in, &out)] for [out] of type [File]: a text that does
    not parse is an error; an empty text leaves [out] as it is; otherwise
    the document is decoded into [out], and type errors met on the way are
    reported together at the end. *)
Definition Unmarshal (input : list byte) (out : File) : File * option error :=
  match parse w input with
  | fail msg => (out, Some (yamlError msg))
  | ok None => (out, None)
  | ok (Some n) =>
      let (out', errs) :=
        yaml.unmarshal_struct zero_File "config.File" field_File n out in
      match errs with
      | [] => (out', None)
      | _ :: _ => (out', Some (TypeError errs))
      end
  end.
End Unmarshal.

(** *** [LoadConfig] *)

(** How a call ends: with its two results ([None] for a nil pointer and
    for a nil error), or in a run-time panic. *)
Inductive outcome : Type :=
| Returned (config : option Config) (err : option error)
| Panicked.

(** [config.API.PaginationKey = v], through the two pointers. *)
Definition store_PaginationKey (v : string) (config : Config) : Config :=
  {| Database := Database config; Updater := Updater config;
     Notifier := Notifier config;
     API := option_map (set_PaginationKey v) (API config) |}.

Definition LoadConfig (w : World) (path : string) : outcome * list event :=
  (* 80-81: var cfgFile File; cfgFile.Clair = DefaultConfig() *)
  let cfgFile := {| Clair := DefaultConfig |} in
  (* 82-84: if path == "" { return &cfgFile.Clair, nil } *)
  if String.eqb path "" then (Returned (Some (Clair cfgFile)) None, [])
  else
    (* 86-89: f, err := os.Open(os.ExpandEnv(path)); a bare return leaves
       config nil *)
    let name := ExpandEnv w path in
    match Open w name with
    | fail msg => (Returned None (Some (PathError msg)), [EvOpen name])
    | ok f =>
        (* 90: defer f.Close(), which runs on every way out from here on *)
        let closing (r : outcome) (ops : list event) :=
          (r, (EvOpen name :: ops ++ [EvClose f])%list) in
        (* 92-95: d, err := ioutil.ReadAll(f) *)
        match ReadAll w f with
        | fail msg => closing (Returned None (Some (ReadError msg))) [EvReadAll f]
        | ok d =>
            (* 97-100: err = yaml.Unmarshal(d, &cfgFile) *)
            match Unmarshal w d cfgFile with
            | (_, Some err) => closing (Returned None (Some err)) [EvReadAll f]
            | (cfgFile', None) =>
                (* 101: config = &cfgFile.Clair *)
                let config := Clair cfgFile' in
                (* 104: config.API.PaginationKey dereferences config.API *)
                match API config with
                | None => closing Panicked [EvReadAll f]
                | Some api =>
                    if String.eqb (PaginationKey api) "" then
                      (* 105-109: generate a key, store its encoding *)
                      match Generate w with
                      | fail msg =>
                          closing (Returned (Some config) (Some (randError msg)))
                            [EvReadAll f; EvRandRead]
                      | ok key =>
                          closing
                            (Returned
                               (Some (store_PaginationKey (fernet.Encode key) config))
                               None)
                            [EvReadAll f; EvRandRead]
                      end
                    else
                      (* 111-115: the decoder's error is replaced *)
                      match DecodeKey w (PaginationKey api) with
                      | fail _ =>
                          closing
                            (Returned (Some config)
                               (Some (errorString
                                  "invalid Pagination key; must be 32-bit URL-safe base64")))
                            [EvReadAll f]
                      (* 118: return *)
                      | ok _ => closing (Returned (Some config) None) [EvReadAll f]
                      end
                end
            end
        end
    end.

(* ================================================================= *)
(** * Part II: the vocabulary of the specification *)

(** ** Pagination keys *)

(** "A valid 32-byte value encoded as URL-safe base64": the text decodes,
    in the URL-safe alphabet, to 32 bytes. *)
Definition valid_pagination_key (s : string) : bool :=
  match base64.DecodeString s with
  | Some k => Nat.eqb (List.length k) fernet.KeyLen
  | None => false
  end.

(** ** The error taxonomy *)

Definition IOError (e : error) : bool :=
  match e with PathError _ | ReadError _ => true | _ => false end.
Definition ParseError (e : error) : bool :=
  match e with yamlError _ | TypeError _ => true | _ => false end.
Definition ValidationError (e : error) : bool :=
  match e with errorString _ => true | _ => false end.
Definition KeyGenerationError (e : error) : bool :=
  match e with randError _ => true | _ => false end.

(** ** Documents of the expected shape *)

(** The value a mapping gives a key (its first entry for it). *)
Fixpoint assoc (key : string) (kvs : list (string * yaml.node))
  : option yaml.node :=
  match kvs with
  | [] => None
  | (k, v) :: rest => if String.eqb k key then Some v else assoc key rest
  end.

Definition mem (key : string) (kvs : list (string * yaml.node)) : bool :=
  existsb (fun kv => String.eqb (fst kv) key) kvs.

(** No key occurs twice in a mapping. *)
Fixpoint unique (kvs : list (string * yaml.node)) : bool :=
  match kvs with
  | [] => true
  | (k, _) :: rest => negb (mem k rest) && unique rest
  end.

Definition is_string (n : yaml.node) : bool :=
  match n with
  | yaml.scalarNode _ yaml.RNull => false
  | yaml.scalarNode _ _ => true
  | _ => false
  end.
Definition is_bool (n : yaml.node) : bool :=
  match n with yaml.scalarNode _ (yaml.RBool _) => true | _ => false end.
Definition is_int (n : yaml.node) : bool :=
  match n with yaml.scalarNode _ (yaml.RInt z) => fits_int z | _ => false end.
Definition is_duration_string (w : World) (n : yaml.node) : bool :=
  match n with
  | yaml.scalarNode value yaml.RStr =>
      match ParseDuration w value with Some _ => true | None => false end
  | _ => false
  end.

(** A schema names the keys a block knows and what their values must be;
    other keys are free. *)
Definition schema : Type := list (string * (yaml.node -> bool)).

Fixpoint admits (sch : schema) (key : string) (value : yaml.node) : bool :=
  match sch with
  | [] => true
  | (k, p) :: rest => if String.eqb key k then p value else admits rest key value
  end.

Definition block (sch : schema) (n : yaml.node) : bool :=
  match n with
  | yaml.mappingNode kvs =>
      unique kvs && forallb (fun kv => admits sch (fst kv) (snd kv)) kvs
  | _ => false
  end.

Definition database_schema : schema := [("type", is_string)].
Definition updater_schema : schema :=
  [("cron", is_string); ("disabled", is_bool)].
Definition notifier_schema (w : World) : schema :=
  [("attempts", is_int); ("renotifyinterval", is_duration_string w)].
Definition api_schema (w : World) : schema :=
  [("port", is_int); ("healthport", is_int);
   ("timeout", is_duration_string w); ("paginationkey", is_string);
   ("certfile", is_string); ("keyfile", is_string); ("cafile", is_string)].
Definition config_schema (w : World) : schema :=
  [("database", block database_schema); ("updater", block updater_schema);
   ("notifier", block (notifier_schema w)); ("api", block (api_schema w))].
Definition file_schema (w : World) : schema :=
  [("clair", block (config_schema w))].

(** A well-formed document: the envelope with the one key that matters,
    its blocks mappings with unique keys, every known field of the type
    the format gives it. *)
Definition well_formed (w : World) (doc : yaml.node) : bool :=
  block (file_schema w) doc.

(** ** The overlay, in the words of the specification

    "Fields present in the document overlay the pre-populated defaults
    field-by-field": each field is looked up in the document; when it is
    there the document's value is taken, otherwise the value already in
    place stays. *)

Definition read_string (n : yaml.node) : string :=
  match n with yaml.scalarNode value _ => value | _ => "" end.
Definition read_bool (n : yaml.node) : bool :=
  match n with yaml.scalarNode _ (yaml.RBool b) => b | _ => false end.
Definition read_int (n : yaml.node) : Z :=
  match n with yaml.scalarNode _ (yaml.RInt z) => z | _ => 0 end.
Definition read_Duration (w : World) (n : yaml.node) : time.Duration :=
  match n with
  | yaml.scalarNode value yaml.RStr =>
      match ParseDuration w value with Some d => d | None => 0 end
  | _ => 0
  end.

Definition present {A : Type} (key : string) (kvs : list (string * yaml.node))
  (read : yaml.node -> A) (default : A) : A :=
  match assoc key kvs with
  | Some n => read n
  | None => default
  end.

Definition overlay_APIConfig (w : World) (kvs : list (string * yaml.node))
  (c : APIConfig) : APIConfig := {|
  Port := present "port" kvs read_int (Port c);
  HealthPort := present "healthport" kvs read_int (HealthPort c);
  Timeout := present "timeout" kvs (read_Duration w) (Timeout c);
  PaginationKey := present "paginationkey" kvs read_string (PaginationKey c);
  CertFile := present "certfile" kvs read_string (CertFile c);
  KeyFile := present "keyfile" kvs read_string (KeyFile c);
  CAFile := present "cafile" kvs read_string (CAFile c)
|}.

Definition overlay_UpdaterConfig (kvs : list (string * yaml.node))
  (c : UpdaterConfig) : UpdaterConfig := {|
  Cron := present "cron" kvs read_string (Cron c);
  Disabled := present "disabled" kvs read_bool (Disabled c)
|}.

Definition overlay_Notifier (w : World) (kvs : list (string * yaml.node))
  (c : notification.Config) : notification.Config := {|
  notification.Attempts := present "attempts" kvs read_int (notification.Attempts c);
  notification.RenotifyInterval :=
    present "renotifyinterval" kvs (read_Duration w)
      (notification.RenotifyInterval c)
|}.

Definition overlay_Database (kvs : list (string * yaml.node))
  (c : database.RegistrableComponentConfig)
  : database.RegistrableComponentConfig := {|
  database.Type_ := present "type" kvs read_string (database.Type_ c);
  database.Params :=
    fold_left
      (fun ps kv =>
         if String.eqb (fst kv) "type" then ps
         else database.set_param (fst kv) (snd kv) ps)
      kvs (database.Params c)
|}.

(** A nested block that is absent keeps what is in place; one that is
    present is overlaid on it, field by field. *)
Definition nested {S : Type} (key : string) (kvs : list (string * yaml.node))
  (overlay : list (string * yaml.node) -> S -> S) (s : S) : S :=
  match assoc key kvs with
  | Some (yaml.mappingNode fields) => overlay fields s
  | _ => s
  end.

(** For a block held by pointer, what is in place is the struct pointed
    to, or the zero struct when the pointer is nil. *)
Definition onto {S : Type} (zero : S)
  (overlay : list (string * yaml.node) -> S -> S)
  (fields : list (string * yaml.node)) (p : option S) : option S :=
  Some (overlay fields (match p with Some s => s | None => zero end)).

Definition overlay_Config (w : World) (kvs : list (string * yaml.node))
  (c : Config) : Config := {|
  Database := nested "database" kvs overlay_Database (Database c);
  Updater :=
    nested "updater" kvs (onto zero_UpdaterConfig overlay_UpdaterConfig)
      (Updater c);
  Notifier :=
    nested "notifier" kvs (onto notification.zero (overlay_Notifier w))
      (Notifier c);
  API := nested "api" kvs (onto zero_APIConfig (overlay_APIConfig w)) (API c)
|}.

Definition overlay_File (w : World) (doc : yaml.node) (c : Config) : Config :=
  match doc with
  | yaml.mappingNode top => nested "clair" top (overlay_Config w) c
  | _ => c
  end.

(** The document that overrides [api.port] and nothing else:
    [clair: { api: { port: p } }], [value] being the text of the number. *)
Definition port_only_doc (value : string) (p : Z) : yaml.node :=
  yaml.mappingNode
    [("clair",
      yaml.mappingNode
        [("api",
          yaml.mappingNode [("port", yaml.scalarNode value (yaml.RInt p))])])].

(** The node a document holds under a path of keys. *)
Fixpoint at_path (keys : list string) (doc : yaml.node) : option yaml.node :=
  match keys with
  | [] => Some doc
  | key :: rest =>
      match doc with
      | yaml.mappingNode kvs =>
          match assoc key kvs with
          | Some n => at_path rest n
          | None => None
          end
      | _ => None
      end
  end.

(** ** Documents without a null block *)







(** ** Blocks a document leaves nil *)





(** ** Worlds that differ in the random source only *)

Definition with_Reader (r : res (nat -> byte)) (w : World) : World := {|
  ExpandEnv := ExpandEnv w;
  Open := Open w;
  ReadAll := ReadAll w;
  parse := parse w;
  ParseDuration := ParseDuration w;
  Reader := r;
  DecodeKey := DecodeKey w
|}.

(** ** What [fernet.DecodeKey] takes

    [DecodeKey] is a field of the world; what the library's own decoder
    does is written out here, for the statements that depend on which
    keys are accepted: a text of 64 characters is read as hexadecimal,
    any other text as standard base64 and, failing that, as URL-safe
    base64; the bytes decoded must be 32. *)

Module hex.
Local Open Scope N_scope.

(** [fromHexChar] *)
Definition fromHexChar (c : ascii) : option N :=
  let n := N_of_ascii c in
  if (48 <=? n) && (n <=? 57) then Some (n - 48)
  else if (97 <=? n) && (n <=? 102) then Some (n - 97 + 10)
  else if (65 <=? n) && (n <=? 70) then Some (n - 65 + 10)
  else None.

(** [hex.Decode]: two digits make a byte; a text of odd length and a
    character that is no digit are errors. *)
Fixpoint Decode (src : list ascii) : option (list byte) :=
  match src with
  | [] => Some []
  | a :: b :: rest =>
      match fromHexChar a, fromHexChar b with
      | Some x, Some y =>
          match Decode rest with
          | Some out => Some (base64.to_byte (N.lor (N.shiftl x 4) y) :: out)
          | None => None
          end
      | _, _ => None
      end
  | [_] => None
  end.

Definition DecodeString (s : string) : option (list byte) :=
  Decode (list_ascii_of_string s).

(** [hex.EncodedLen] *)
Definition EncodedLen (n : nat) : nat := (n * 2)%nat.
End hex.

Module base64go.
Local Open Scope N_scope.

Definition encodeStd : string :=
  "ABCDEFGHIJKLMNOPQRSTUVWXYZabcdefghijklmnopqrstuvwxyz0123456789+/".

(** Carriage returns and line feeds are passed over by the decoder. *)
Definition isNewline (c : ascii) : bool :=
  Ascii.eqb c (ascii_of_nat 10) || Ascii.eqb c (ascii_of_nat 13).
Definition removeNewlines (src : list ascii) : list ascii :=
  filter (fun c => negb (isNewline c)) src.

(** The decoder of [base64.Decode], for an alphabet given as the list of
    its 64 letters. *)
Fixpoint DecodeIn (alphabet : list ascii) (src : list ascii)
  : option (list byte) :=
  match src with
  | [] => Some []
  | c0 :: c1 :: c2 :: c3 :: rest =>
      match base64.index c0 alphabet 0, base64.index c1 alphabet 0 with
      | Some s0, Some s1 =>
          if Ascii.eqb c2 base64.StdPadding then
            if Ascii.eqb c3 base64.StdPadding then
              match rest with
              | [] =>
                  Some [base64.to_byte
                          (N.shiftr (base64.quantum s0 s1 0 0) 16)]
              | _ => None
              end
            else None
          else
            match base64.index c2 alphabet 0 with
            | Some s2 =>
                if Ascii.eqb c3 base64.StdPadding then
                  match rest with
                  | [] =>
                      let val := base64.quantum s0 s1 s2 0 in
                      Some [base64.to_byte (N.shiftr val 16);
                            base64.to_byte (N.shiftr val 8)]
                  | _ => None
                  end
                else
                  match base64.index c3 alphabet 0 with
                  | Some s3 =>
                      let val := base64.quantum s0 s1 s2 s3 in
                      match DecodeIn alphabet rest with
                      | Some out =>
                          Some (base64.to_byte (N.shiftr val 16)
                                  :: base64.to_byte (N.shiftr val 8)
                                  :: base64.to_byte val :: out)
                      | None => None
                      end
                  | None => None
                  end
            | None => None
            end
      | _, _ => None
      end
  | _ => None
  end.

(** [base64.StdEncoding.DecodeString] and
    [base64.URLEncoding.DecodeString]. *)
Definition StdEncoding_DecodeString (s : string) : option (list byte) :=
  DecodeIn (list_ascii_of_string encodeStd)
    (removeNewlines (list_ascii_of_string s)).
Definition URLEncoding_DecodeString (s : string) : option (list byte) :=
  DecodeIn (list_ascii_of_string base64.encodeURL)
    (removeNewlines (list_ascii_of_string s)).
End base64go.

(** [fernet.DecodeKey].  (The empty text is rejected as every other text
    that does not decode to 32 bytes; only that an error is returned
    matters to the loader, which replaces it.) *)
Definition fernet_DecodeKey (s : string) : res fernet.Key :=
  let decoded :=
    if Nat.eqb (String.length s) (hex.EncodedLen fernet.KeyLen) then
      hex.DecodeString s
    else
      match base64go.StdEncoding_DecodeString s with
      | Some b => Some b
      | None => base64go.URLEncoding_DecodeString s
      end in
  match decoded with
  | None => fail "fernet: key does not decode"
  | Some b =>
      if Nat.eqb (List.length b) fernet.KeyLen then ok b
      else fail "fernet: key decodes to wrong size"
  end.

(** The text [s] is the encoding of the bytes [k] in one of the three
    forms the decoder takes. *)
Definition encodes (s : string) (k : list byte) : Prop :=
  hex.DecodeString s = Some k
  \/ base64go.StdEncoding_DecodeString s = Some k
  \/ base64go.URLEncoding_DecodeString s = Some k.

(* ================================================================= *)
(** * Part III: worlds and documents for the examples *)

Module Examples.
Import yaml.

Definition path : string := "/etc/clair/config.yaml".

(** A decoder that takes exactly the URL-safe base64 texts of 32 bytes. *)
Definition strict_DecodeKey (s : string) : res fernet.Key :=
  match base64.DecodeString s with
  | Some k =>
      if Nat.eqb (List.length k) fernet.KeyLen then ok k
      else fail "fernet: key is not 32 bytes"
  | None => fail "illegal base64 data"
  end.

Definition durations (s : string) : option time.Duration :=
  if String.eqb s "900s" then Some (900 * time.Second)
  else if String.eqb s "30s" then Some (30 * time.Second)
  else if String.eqb s "2h" then Some (2 * time.Hour)
  else if String.eqb s "1h30m" then Some (90 * time.Minute)
  else None.

Definition random (i : nat) : byte := base64.to_byte (N.of_nat (i * 37 + 11)).

(** A world with one file, [path], holding [text], which the YAML parser
    reads as [doc]. *)
Definition world (text : string) (doc : res (option node)) : World := {|
  ExpandEnv := fun p => p;
  Open := fun name =>
    if String.eqb name path then ok 3%nat
    else fail ("open " ++ name ++ ": no such file or directory");
  ReadAll := fun _ => ok (list_byte_of_string text);
  parse := fun _ => doc;
  ParseDuration := durations;
  Reader := ok random;
  DecodeKey := strict_DecodeKey
|}.

Definition clair (kvs : list (string * node)) : res (option node) :=
  ok (Some (mappingNode [("clair", mappingNode kvs)])).

(** clair: { api: { port: 8080 } } *)
Definition port_only_text : string := "clair:
  api:
    port: 8080
".
Definition port_only : World :=
  world port_only_text
    (clair [("api", mappingNode [("port", scalarNode "8080" (RInt 8080))])]).

(** A document that sets a pagination key that is no base64 text. *)
Definition bad_key_text : string := "clair:
  api:
    paginationkey: not-valid-base64!!
".
Definition bad_key : World :=
  world bad_key_text
    (clair [("api",
             mappingNode [("paginationkey", scalarNode "not-valid-base64!!" RStr)])]).


(** A document that gives the api block no value. *)
Definition null_api_text : string := "clair:
  api:
".
Definition null_api : World :=
  world null_api_text (clair [("api", scalarNode "" RNull)]).

(** A document with a timeout and a key of its own. *)
Definition full_text : string := "clair:
  database:
    type: pgsql
    source: postgresql://clair@db:5432?sslmode=disable
  updater:
    cron: '@hourly'
  api:
    port: 6060
    timeout: 30s
    paginationkey: AAECAwQFBgcICQoLDA0ODxAREhMUFRYXGBkaGxwdHh8=
".
Definition full_doc : node :=
  mappingNode
    [("clair",
      mappingNode
        [("database",
          mappingNode
            [("type", scalarNode "pgsql" RStr);
             ("source",
              scalarNode "postgresql://clair@db:5432?sslmode=disable" RStr)]);
         ("updater", mappingNode [("cron", scalarNode "@hourly" RStr)]);
         ("api",
          mappingNode
            [("port", scalarNode "6060" (RInt 6060));
             ("timeout", scalarNode "30s" RStr);
             ("paginationkey",
              scalarNode "AAECAwQFBgcICQoLDA0ODxAREhMUFRYXGBkaGxwdHh8=" RStr)])])].
Definition full : World := world full_text (ok (Some full_doc)).

(** A text that is no YAML, and a document of another shape. *)
Definition malformed : World :=
  world "clair: [unclosed" (fail "yaml: line 1: did not find expected ',' or ']'").
Definition wrong_shape : World :=
  world "clair: [1, 2]
"
    (ok (Some (mappingNode
       [("clair", sequenceNode [scalarNode "1" (RInt 1); scalarNode "2" (RInt 2)])]))).

(** A world in which the file exists but cannot be read, and one whose
    random source fails. *)
Definition unreadable : World := {|
  ExpandEnv := fun p => p;
  Open := fun _ => ok 3%nat;
  ReadAll := fun _ => fail "read /etc/clair/config.yaml: input/output error";
  parse := fun _ => ok None;
  ParseDuration := durations;
  Reader := ok random;
  DecodeKey := strict_DecodeKey
|}.
Definition no_entropy : World := {|
  ExpandEnv := fun p => p;
  Open := fun _ => ok 3%nat;
  ReadAll := fun _ => ok [];
  parse := fun _ => ok None;
  ParseDuration := durations;
  Reader := fail "unexpected EOF";
  DecodeKey := strict_DecodeKey
|}.

(** What the loader is expected to make of [full], and the key the random
    source of these worlds generates. *)
Definition full_config : Config := {|
  Database := {|
    database.Type_ := "pgsql";
    database.Params :=
      [("source",
        scalarNode "postgresql://clair@db:5432?sslmode=disable" RStr)]
  |};
  Updater := Some {| Cron := "@hourly"; Disabled := false |};
  Notifier := Some {|
    notification.Attempts := 5;
    notification.RenotifyInterval := 2 * time.Hour
  |};
  API := Some {|
    Port := 6060; HealthPort := 6061; Timeout := 30 * time.Second;
    PaginationKey := "AAECAwQFBgcICQoLDA0ODxAREhMUFRYXGBkaGxwdHh8=";
    CertFile := ""; KeyFile := ""; CAFile := ""
  |}
|}.

Definition generated_key : string := fernet.Encode (fernet.fill random).
End Examples.

Module MoreExamples.
Import yaml.

(** A file with nothing in it. *)
Definition empty_file : World := Examples.world "" (ok None).

(** A document without the [clair] key. *)
Definition unrelated : World :=
  Examples.world "logging:
  level: debug
"
    (ok (Some (mappingNode
       [("logging", mappingNode [("level", scalarNode "debug" RStr)])]))).

End MoreExamples.

Module FernetExamples.
Import yaml.

(** The worlds of [Examples], with the library's decoder for keys. *)
Definition world (text : string) (doc : res (option node)) : World := {|
  ExpandEnv := fun p => p;
  Open := Open (Examples.world text doc);
  ReadAll := ReadAll (Examples.world text doc);
  parse := fun _ => doc;
  ParseDuration := Examples.durations;
  Reader := ok Examples.random;
  DecodeKey := fernet_DecodeKey
|}.

Definition full : World := world Examples.full_text (ok (Some Examples.full_doc)).

(** A document whose pagination key is written in hexadecimal. *)
Definition hex_key_text : string := "clair:
  api:
    paginationkey: 000102030405060708090a0b0c0d0e0f101112131415161718191a1b1c1d1e1f
".
Definition hex_text : string :=
  "000102030405060708090a0b0c0d0e0f101112131415161718191a1b1c1d1e1f".
Definition hex_key : World :=
  world hex_key_text
    (Examples.clair
       [("api", mappingNode [("paginationkey", scalarNode hex_text RStr)])]).
End FernetExamples.

(* ================================================================= *)
(** * Part IV: properties *)

(** ** base64: decoding undoes encoding *)

Section Base64Facts.
Import base64.
Local Open Scope N_scope.

Ltac euclid := zify; Z.to_euclidean_division_equations; lia.

(** Two words without a common bit add up to their bitwise or. *)
Lemma lor_disjoint (k x b : N) :
  x mod 2 ^ k = 0 -> b < 2 ^ k -> N.lor x b = x + b.
Proof.
  intros Hx Hb.
  assert (Hk : 2 ^ k <> 0) by (apply N.pow_nonzero; discriminate).
  rewrite (N.div_mod x (2 ^ k) Hk), Hx, N.add_0_r, (N.mul_comm (2 ^ k)).
  rewrite <- N.lxor_lor, <- N.add_nocarry_lxor; trivial.
  all: apply N.bits_inj; intros n; rewrite N.land_spec, N.bits_0;
    destruct (N.lt_ge_cases n k) as [Hn|Hn].
  all: try (rewrite N.mul_pow2_bits_low by trivial; reflexivity).
  all: destruct (N.eq_dec b 0) as [->|Hz];
    [rewrite N.bits_0; apply andb_false_r|].
  all: rewrite (N.bits_above_log2 b n), andb_false_r; trivial.
  all: apply N.log2_lt_pow2; [lia|];
    apply N.lt_le_trans with (2 ^ k); trivial;
    apply N.pow_le_mono_r; lia.
Qed.

Lemma uint_bound (b : byte) : uint b < 256.
Proof. unfold uint. pose proof (Byte.to_N_bounded b). lia. Qed.

Lemma to_byte_uint (v : N) (b : byte) : v mod 256 = uint b -> to_byte v = b.
Proof.
  intros H. unfold to_byte. rewrite (N.land_ones _ 8).
  change (2 ^ 8) with 256. rewrite H. unfold uint.
  now rewrite Byte.of_to_N.
Qed.

(** The word of three bytes, and the word of four sextets. *)
Lemma pack3 (a b c : N) :
  a < 256 -> b < 256 -> c < 256 ->
  N.lor (N.lor (N.shiftl a 16) (N.shiftl b 8)) c = a * 65536 + b * 256 + c.
Proof.
  intros Ha Hb Hc. rewrite !N.shiftl_mul_pow2.
  change (2 ^ 16) with 65536. change (2 ^ 8) with 256.
  rewrite (lor_disjoint 16 (a * 65536) (b * 256)) by (cbn; euclid).
  rewrite (lor_disjoint 8) by (cbn; euclid). reflexivity.
Qed.

Lemma pack4 (s0 s1 s2 s3 : N) :
  s0 < 64 -> s1 < 64 -> s2 < 64 -> s3 < 64 ->
  quantum s0 s1 s2 s3 = s0 * 262144 + s1 * 4096 + s2 * 64 + s3.
Proof.
  intros H0 H1 H2 H3. unfold quantum. rewrite !N.shiftl_mul_pow2.
  change (2 ^ 18) with 262144. change (2 ^ 12) with 4096.
  change (2 ^ 6) with 64.
  rewrite (lor_disjoint 18 (s0 * 262144) (s1 * 4096)) by (cbn; euclid).
  rewrite (lor_disjoint 12 _ (s2 * 64)) by (cbn; euclid).
  rewrite (lor_disjoint 6) by (cbn; euclid). reflexivity.
Qed.

Lemma six_spec (val shift : N) : six val shift = val / 2 ^ shift mod 64.
Proof. unfold six. now rewrite N.shiftr_div_pow2, (N.land_ones _ 6). Qed.

Lemma six_bound (val shift : N) : six val shift < 64.
Proof. rewrite six_spec. apply N.mod_lt. discriminate. Qed.

(** The alphabet: [decodeMap] inverts [encode], and no letter of it is the
    padding character. *)
Lemma alphabet_checked :
  forallb
    (fun i =>
       match decodeMap (encode (N.of_nat i)) with
       | Some j => N.eqb j (N.of_nat i)
       | None => false
       end && negb (Ascii.eqb (encode (N.of_nat i)) StdPadding))
    (seq 0 64) = true.
Proof. vm_compute. reflexivity. Qed.

Lemma decodeMap_encode (i : N) :
  i < 64 ->
  decodeMap (encode i) = Some i /\ Ascii.eqb (encode i) StdPadding = false.
Proof.
  intros Hi. pose proof alphabet_checked as H.
  rewrite forallb_forall in H. specialize (H (N.to_nat i)).
  rewrite N2Nat.id in H.
  assert (Hin : In (N.to_nat i) (seq 0 64)) by (apply in_seq; lia).
  apply H in Hin. apply andb_true_iff in Hin as [H1 H2].
  destruct (decodeMap (encode i)) as [j|]; [|discriminate].
  apply N.eqb_eq in H1. subst j. split; trivial.
  now apply negb_true_iff in H2.
Qed.

Lemma decodeMap_sextet (val shift : N) :
  decodeMap (sextet val shift) = Some (six val shift).
Proof. apply decodeMap_encode, six_bound. Qed.

Lemma sextet_not_padding (val shift : N) :
  Ascii.eqb (sextet val shift) StdPadding = false.
Proof. apply decodeMap_encode, six_bound. Qed.

Lemma padding_is_padding : Ascii.eqb StdPadding StdPadding = true.
Proof. reflexivity. Qed.

(** One full group. *)
Lemma group3 (a b c : byte) :
  let val := N.lor (N.lor (N.shiftl (uint a) 16) (N.shiftl (uint b) 8)) (uint c) in
  let val' := quantum (six val 18) (six val 12) (six val 6) (six val 0) in
  to_byte (N.shiftr val' 16) = a /\ to_byte (N.shiftr val' 8) = b
  /\ to_byte val' = c.
Proof.
  intros val val'. subst val'.
  pose proof (uint_bound a). pose proof (uint_bound b).
  pose proof (uint_bound c).
  rewrite pack4 by apply six_bound. rewrite !six_spec. subst val.
  rewrite pack3 by trivial. rewrite !N.shiftr_div_pow2.
  change (2 ^ 18) with 262144. change (2 ^ 16) with 65536.
  change (2 ^ 12) with 4096. change (2 ^ 8) with 256.
  change (2 ^ 6) with 64. change (2 ^ 0) with 1.
  repeat split; apply to_byte_uint; euclid.
Qed.

Lemma group2 (a b : byte) :
  let val := N.lor (N.shiftl (uint a) 16) (N.shiftl (uint b) 8) in
  let val' := quantum (six val 18) (six val 12) (six val 6) 0 in
  to_byte (N.shiftr val' 16) = a /\ to_byte (N.shiftr val' 8) = b.
Proof.
  intros val val'. subst val'.
  pose proof (uint_bound a). pose proof (uint_bound b).
  rewrite pack4 by (try apply six_bound; lia). rewrite !six_spec.
  assert (Hval : val = uint a * 65536 + uint b * 256 + 0).
  { subst val. rewrite <- (pack3 (uint a) (uint b) 0) by (trivial; lia).
    now rewrite N.lor_0_r. }
  rewrite Hval. rewrite !N.shiftr_div_pow2.
  change (2 ^ 18) with 262144. change (2 ^ 16) with 65536.
  change (2 ^ 12) with 4096. change (2 ^ 8) with 256.
  change (2 ^ 6) with 64.
  split; apply to_byte_uint; euclid.
Qed.

Lemma group1 (a : byte) :
  let val := N.shiftl (uint a) 16 in
  to_byte (N.shiftr (quantum (six val 18) (six val 12) 0 0) 16) = a.
Proof.
  intros val. pose proof (uint_bound a).
  rewrite pack4 by (try apply six_bound; lia). rewrite !six_spec.
  subst val. rewrite N.shiftl_mul_pow2, !N.shiftr_div_pow2.
  change (2 ^ 18) with 262144. change (2 ^ 16) with 65536.
  change (2 ^ 12) with 4096.
  apply to_byte_uint; euclid.
Qed.

Lemma Decode_Encode_upto (n : nat) :
  forall src : list byte, (List.length src <= n)%nat -> Decode (Encode src) = Some src.
Proof.
  induction n as [|n IH]; intros src Hlen.
  - destruct src; [reflexivity | simpl in Hlen; lia].
  - destruct src as [|a [|b [|c rest]]].
    + reflexivity.
    + cbn [Encode Decode].
      rewrite !decodeMap_sextet, padding_is_padding.
      now rewrite (group1 a).
    + cbn [Encode Decode].
      rewrite !decodeMap_sextet, sextet_not_padding, padding_is_padding.
      destruct (group2 a b) as [-> ->]. reflexivity.
    + cbn [Encode Decode].
      rewrite !decodeMap_sextet, !sextet_not_padding.
      rewrite IH by (simpl in Hlen; lia).
      destruct (group3 a b c) as (-> & -> & ->). reflexivity.
Qed.

Lemma Decode_Encode (src : list byte) : Decode (Encode src) = Some src.
Proof. now apply (Decode_Encode_upto (List.length src)). Qed.

Lemma DecodeString_EncodeToString (src : list byte) :
  DecodeString (EncodeToString src) = Some src.
Proof.
  unfold DecodeString, EncodeToString.
  rewrite list_ascii_of_string_of_list_ascii. apply Decode_Encode.
Qed.

Lemma EncodeToString_nonempty (src : list byte) :
  src <> [] -> EncodeToString src <> EmptyString.
Proof.
  intros Hsrc. unfold EncodeToString.
  destruct src as [|a [|b [|c rest]]]; [congruence | | | ];
    cbn [Encode string_of_list_ascii]; discriminate.
Qed.
End Base64Facts.

(** A generated key, encoded, is a valid pagination key, and not empty. *)
Lemma generated_key_valid (r : nat -> byte) :
  valid_pagination_key (fernet.Encode (fernet.fill r)) = true.
Proof.
  unfold valid_pagination_key, fernet.Encode.
  rewrite DecodeString_EncodeToString.
  unfold fernet.fill. now rewrite length_map, length_seq, Nat.eqb_refl.
Qed.

Lemma generated_key_nonempty (r : nat -> byte) :
  fernet.Encode (fernet.fill r) <> "".
Proof. apply EncodeToString_nonempty. discriminate. Qed.


(** ** yaml: decoding a well-formed block is the overlay *)

Section Overlay.
Variable w : World.

Lemma mem_false_assoc (key : string) (kvs : list (string * yaml.node)) :
  mem key kvs = false -> assoc key kvs = None.
Proof.
  induction kvs as [|[k v] rest IH]; [reflexivity|].
  cbn [mem existsb fst]. intros H. apply orb_false_iff in H as [Hk Hrest].
  cbn [assoc]. rewrite Hk. now apply IH.
Qed.

(** What a conforming value looks like. *)
Lemma is_string_inv (n : yaml.node) (out : string) :
  is_string n = true -> yaml.unmarshal_string n out = (read_string n, []).
Proof. destruct n as [value [| b | z |] | kvs | items]; now cbn. Qed.

Lemma is_bool_inv (n : yaml.node) (out : bool) :
  is_bool n = true -> yaml.unmarshal_bool n out = (read_bool n, []).
Proof. destruct n as [value [| b | z |] | kvs | items]; now cbn. Qed.

Lemma is_int_inv (n : yaml.node) (out : Z) :
  is_int n = true -> yaml.unmarshal_int n out = (read_int n, []).
Proof.
  destruct n as [value [| b | z |] | kvs | items]; cbn; try discriminate.
  now intros ->.
Qed.

Lemma is_duration_string_inv (n : yaml.node) (out : time.Duration) :
  is_duration_string w n = true ->
  yaml.unmarshal_Duration (ParseDuration w) n out = (read_Duration w n, []).
Proof.
  destruct n as [value [| b | z |] | kvs | items]; cbn; try discriminate.
  now destruct (ParseDuration w value).
Qed.

(** The cases of an induction over the entries of a block: for a known
    key, the rest of the block does not name it again; for an unknown
    one, every comparison has failed. *)
Ltac known_key Hmem IH :=
  rewrite IH by assumption;
  unfold overlay_APIConfig, overlay_UpdaterConfig, overlay_Notifier, present;
  cbn; rewrite ?(mem_false_assoc _ _ Hmem); reflexivity.

Ltac split_entry Hu Ha Hmem Hu' Hadm Ha' :=
  cbn [unique forallb fst snd] in Hu, Ha;
  apply andb_true_iff in Hu as [Hmem Hu'];
  apply negb_true_iff in Hmem;
  apply andb_true_iff in Ha as [Hadm Ha'];
  cbn [yaml.mappingStruct].

Lemma mappingStruct_APIConfig (kvs : list (string * yaml.node)) :
  forall c : APIConfig,
  unique kvs = true ->
  forallb (fun kv => admits (api_schema w) (fst kv) (snd kv)) kvs = true ->
  yaml.mappingStruct (field_APIConfig w) kvs c = (overlay_APIConfig w kvs c, []).
Proof.
  induction kvs as [|[k v] rest IH]; intros c Hu Ha.
  - now destruct c.
  - split_entry Hu Ha Hmem Hu' Hadm Ha'.
    unfold field_APIConfig. cbn [admits api_schema] in Hadm.
    destruct (String.eqb k "port") eqn:E1.
    { apply String.eqb_eq in E1; subst k.
      rewrite (is_int_inv _ _ Hadm). known_key Hmem IH. }
    destruct (String.eqb k "healthport") eqn:E2.
    { apply String.eqb_eq in E2; subst k.
      rewrite (is_int_inv _ _ Hadm). known_key Hmem IH. }
    destruct (String.eqb k "timeout") eqn:E3.
    { apply String.eqb_eq in E3; subst k.
      rewrite (is_duration_string_inv _ _ Hadm). known_key Hmem IH. }
    destruct (String.eqb k "paginationkey") eqn:E4.
    { apply String.eqb_eq in E4; subst k.
      rewrite (is_string_inv _ _ Hadm). known_key Hmem IH. }
    destruct (String.eqb k "certfile") eqn:E5.
    { apply String.eqb_eq in E5; subst k.
      rewrite (is_string_inv _ _ Hadm). known_key Hmem IH. }
    destruct (String.eqb k "keyfile") eqn:E6.
    { apply String.eqb_eq in E6; subst k.
      rewrite (is_string_inv _ _ Hadm). known_key Hmem IH. }
    destruct (String.eqb k "cafile") eqn:E7.
    { apply String.eqb_eq in E7; subst k.
      rewrite (is_string_inv _ _ Hadm). known_key Hmem IH. }
    rewrite IH by assumption.
    unfold overlay_APIConfig, present. cbn [assoc].
    now rewrite E1, E2, E3, E4, E5, E6, E7.
Qed.

Lemma mappingStruct_UpdaterConfig (kvs : list (string * yaml.node)) :
  forall c : UpdaterConfig,
  unique kvs = true ->
  forallb (fun kv => admits updater_schema (fst kv) (snd kv)) kvs = true ->
  yaml.mappingStruct field_UpdaterConfig kvs c = (overlay_UpdaterConfig kvs c, []).
Proof.
  induction kvs as [|[k v] rest IH]; intros c Hu Ha.
  - now destruct c.
  - split_entry Hu Ha Hmem Hu' Hadm Ha'.
    unfold field_UpdaterConfig. cbn [admits updater_schema] in Hadm.
    destruct (String.eqb k "cron") eqn:E1.
    { apply String.eqb_eq in E1; subst k.
      rewrite (is_string_inv _ _ Hadm). known_key Hmem IH. }
    destruct (String.eqb k "disabled") eqn:E2.
    { apply String.eqb_eq in E2; subst k.
      rewrite (is_bool_inv _ _ Hadm). known_key Hmem IH. }
    rewrite IH by assumption.
    unfold overlay_UpdaterConfig, present. cbn [assoc].
    now rewrite E1, E2.
Qed.

Lemma mappingStruct_Notifier (kvs : list (string * yaml.node)) :
  forall c : notification.Config,
  unique kvs = true ->
  forallb (fun kv => admits (notifier_schema w) (fst kv) (snd kv)) kvs = true ->
  yaml.mappingStruct (notification.field (ParseDuration w)) kvs c
  = (overlay_Notifier w kvs c, []).
Proof.
  induction kvs as [|[k v] rest IH]; intros c Hu Ha.
  - now destruct c.
  - split_entry Hu Ha Hmem Hu' Hadm Ha'.
    unfold notification.field. cbn [admits notifier_schema] in Hadm.
    destruct (String.eqb k "attempts") eqn:E1.
    { apply String.eqb_eq in E1; subst k.
      rewrite (is_int_inv _ _ Hadm). known_key Hmem IH. }
    destruct (String.eqb k "renotifyinterval") eqn:E2.
    { apply String.eqb_eq in E2; subst k.
      rewrite (is_duration_string_inv _ _ Hadm). known_key Hmem IH. }
    rewrite IH by assumption.
    unfold overlay_Notifier, present. cbn [assoc].
    now rewrite E1, E2.
Qed.

Lemma mappingStruct_Database (kvs : list (string * yaml.node)) :
  forall c : database.RegistrableComponentConfig,
  unique kvs = true ->
  forallb (fun kv => admits database_schema (fst kv) (snd kv)) kvs = true ->
  yaml.mappingStruct database.field kvs c = (overlay_Database kvs c, []).
Proof.
  induction kvs as [|[k v] rest IH]; intros c Hu Ha.
  - now destruct c.
  - split_entry Hu Ha Hmem Hu' Hadm Ha'.
    unfold database.field. cbn [admits database_schema] in Hadm.
    destruct (String.eqb k "type") eqn:E1.
    + apply String.eqb_eq in E1; subst k.
      rewrite (is_string_inv _ _ Hadm). rewrite IH by assumption.
      unfold overlay_Database, present. cbn.
      now rewrite (mem_false_assoc _ _ Hmem).
    + rewrite IH by assumption.
      unfold overlay_Database, present. cbn [assoc fold_left fst snd].
      now rewrite E1.
Qed.

Lemma block_inv (sch : schema) (n : yaml.node) :
  block sch n = true ->
  exists fields,
    n = yaml.mappingNode fields /\ unique fields = true
    /\ forallb (fun kv => admits sch (fst kv) (snd kv)) fields = true.
Proof.
  destruct n as [value r | fields | items]; try discriminate.
  cbn [block]. intros H. apply andb_true_iff in H as [Hu Ha]. now exists fields.
Qed.

Ltac nested_key Hmem IH :=
  rewrite IH by assumption;
  unfold overlay_Config, nested, onto; cbn;
  rewrite ?(mem_false_assoc _ _ Hmem); reflexivity.

Lemma mappingStruct_Config (kvs : list (string * yaml.node)) :
  forall c : Config,
  unique kvs = true ->
  forallb (fun kv => admits (config_schema w) (fst kv) (snd kv)) kvs = true ->
  yaml.mappingStruct (field_Config w) kvs c = (overlay_Config w kvs c, []).
Proof.
  induction kvs as [|[k v] rest IH]; intros c Hu Ha.
  - now destruct c.
  - split_entry Hu Ha Hmem Hu' Hadm Ha'.
    unfold field_Config. cbn [admits config_schema] in Hadm.
    destruct (String.eqb k "database") eqn:E1.
    { apply String.eqb_eq in E1; subst k.
      apply block_inv in Hadm as (fields & -> & Hfu & Hfa).
      cbn [yaml.unmarshal_struct].
      rewrite (mappingStruct_Database _ _ Hfu Hfa). nested_key Hmem IH. }
    destruct (String.eqb k "updater") eqn:E2.
    { apply String.eqb_eq in E2; subst k.
      apply block_inv in Hadm as (fields & -> & Hfu & Hfa).
      cbn [yaml.unmarshal_ptr].
      rewrite (mappingStruct_UpdaterConfig _ _ Hfu Hfa). nested_key Hmem IH. }
    destruct (String.eqb k "notifier") eqn:E3.
    { apply String.eqb_eq in E3; subst k.
      apply block_inv in Hadm as (fields & -> & Hfu & Hfa).
      cbn [yaml.unmarshal_ptr].
      rewrite (mappingStruct_Notifier _ _ Hfu Hfa). nested_key Hmem IH. }
    destruct (String.eqb k "api") eqn:E4.
    { apply String.eqb_eq in E4; subst k.
      apply block_inv in Hadm as (fields & -> & Hfu & Hfa).
      cbn [yaml.unmarshal_ptr].
      rewrite (mappingStruct_APIConfig _ _ Hfu Hfa). nested_key Hmem IH. }
    rewrite IH by assumption.
    unfold overlay_Config, nested. cbn [assoc].
    now rewrite E1, E2, E3, E4.
Qed.

Lemma mappingStruct_File (top : list (string * yaml.node)) :
  forall f : File,
  unique top = true ->
  forallb (fun kv => admits (file_schema w) (fst kv) (snd kv)) top = true ->
  yaml.mappingStruct (field_File w) top f
  = ({| Clair := nested "clair" top (overlay_Config w) (Clair f) |}, []).
Proof.
  induction top as [|[k v] rest IH]; intros f Hu Ha.
  - now destruct f.
  - split_entry Hu Ha Hmem Hu' Hadm Ha'.
    unfold field_File. cbn [admits file_schema] in Hadm.
    destruct (String.eqb k "clair") eqn:E1.
    + apply String.eqb_eq in E1; subst k.
      apply block_inv in Hadm as (fields & -> & Hfu & Hfa).
      cbn [yaml.unmarshal_struct].
      rewrite (mappingStruct_Config _ _ Hfu Hfa).
      rewrite IH by assumption. unfold nested. cbn.
      now rewrite (mem_false_assoc _ _ Hmem).
    + rewrite IH by assumption. unfold nested. cbn [assoc]. now rewrite E1.
Qed.

(** Decoding a well-formed document meets no type error and yields the
    overlay of the document on what was in place. *)
Lemma Unmarshal_well_formed (input : list byte) (doc : yaml.node) (f : File) :
  parse w input = ok (Some doc) ->
  well_formed w doc = true ->
  Unmarshal w input f = ({| Clair := overlay_File w doc (Clair f) |}, None).
Proof.
  intros Hparse Hwf. unfold Unmarshal. rewrite Hparse.
  apply block_inv in Hwf as (top & -> & Hu & Ha).
  cbn [yaml.unmarshal_struct overlay_File].
  now rewrite (mappingStruct_File _ _ Hu Ha).
Qed.
End Overlay.

(** ** [LoadConfig], step by step *)

Section Load.
Variable w : World.
Variable path : string.
Hypothesis nonempty : path <> "".

Let name : string := ExpandEnv w path.
Let cfgFile : File := {| Clair := DefaultConfig |}.

Lemma path_test : String.eqb path "" = false.
Proof. now apply String.eqb_neq. Qed.

Lemma LoadConfig_open_fails (msg : string) :
  Open w name = fail msg ->
  LoadConfig w path = (Returned None (Some (PathError msg)), [EvOpen name]).
Proof.
  intros H. unfold LoadConfig. rewrite path_test. fold name. now rewrite H.
Qed.

Lemma LoadConfig_read_fails (f : os.File) (msg : string) :
  Open w name = ok f -> ReadAll w f = fail msg ->
  LoadConfig w path
  = (Returned None (Some (ReadError msg)),
     [EvOpen name; EvReadAll f; EvClose f]).
Proof.
  intros Ho Hr. unfold LoadConfig. rewrite path_test. fold name.
  now rewrite Ho, Hr.
Qed.

Lemma LoadConfig_unmarshal_fails (f : os.File) (d : list byte)
  (out : File) (e : error) :
  Open w name = ok f -> ReadAll w f = ok d ->
  Unmarshal w d cfgFile = (out, Some e) ->
  LoadConfig w path
  = (Returned None (Some e), [EvOpen name; EvReadAll f; EvClose f]).
Proof.
  intros Ho Hr Hu. unfold LoadConfig. rewrite path_test. fold name cfgFile.
  now rewrite Ho, Hr, Hu.
Qed.

(** After a successful parse, the pagination-key step decides. *)
Lemma LoadConfig_parsed (f : os.File) (d : list byte) (out : File) :
  Open w name = ok f -> ReadAll w f = ok d ->
  Unmarshal w d cfgFile = (out, None) ->
  LoadConfig w path
  = match API (Clair out) with
    | None => (Panicked, [EvOpen name; EvReadAll f; EvClose f])
    | Some api =>
        if String.eqb (PaginationKey api) "" then
          match Reader w with
          | fail msg =>
              (Returned (Some (Clair out)) (Some (randError msg)),
               [EvOpen name; EvReadAll f; EvRandRead; EvClose f])
          | ok r =>
              (Returned
                 (Some (store_PaginationKey (fernet.Encode (fernet.fill r))
                          (Clair out)))
                 None,
               [EvOpen name; EvReadAll f; EvRandRead; EvClose f])
          end
        else
          match DecodeKey w (PaginationKey api) with
          | fail _ =>
              (Returned (Some (Clair out))
                 (Some (errorString
                    "invalid Pagination key; must be 32-bit URL-safe base64")),
               [EvOpen name; EvReadAll f; EvClose f])
          | ok _ =>
              (Returned (Some (Clair out)) None,
               [EvOpen name; EvReadAll f; EvClose f])
          end
    end.
Proof.
  intros Ho Hr Hu. unfold LoadConfig. rewrite path_test. fold name cfgFile.
  rewrite Ho, Hr, Hu.
  destruct (API (Clair out)) as [api|]; [|reflexivity].
  destruct (String.eqb (PaginationKey api) "").
  - unfold Generate. now destruct (Reader w).
  - now destruct (DecodeKey w (PaginationKey api)).
Qed.
End Load.

(** What [yaml.Unmarshal] reports is a parse error. *)
Lemma Unmarshal_error (w : World) (d : list byte) (f out : File) (e : error) :
  Unmarshal w d f = (out, Some e) -> ParseError e = true.
Proof.
  unfold Unmarshal. destruct (parse w d) as [[doc|]|msg].
  - destruct (yaml.unmarshal_struct _ _ _ doc f) as [out' [|t errs]];
      intros H; inversion H; reflexivity.
  - discriminate.
  - intros H; inversion H; reflexivity.
Qed.

(** ** The empty path *)

(** C2.  For the empty path, [LoadConfig] returns a config equal to
    [DefaultConfig], field for field, with a nil error, and performs no
    operation on the file system or on any other part of the world: the
    trace of the call is empty, and the call comes out the same in every
    world. *)
Theorem LoadConfig_empty_path (w : World) :
  LoadConfig w "" = (Returned (Some DefaultConfig) None, [])
  /\ forall w' : World, LoadConfig w' "" = LoadConfig w "".
Proof.
  assert (H : forall x : World,
            LoadConfig x "" = (Returned (Some DefaultConfig) None, [])).
  { intros x. unfold LoadConfig. rewrite String.eqb_refl. reflexivity. }
  split.
  - apply H.
  - intros w'. now rewrite !H.
Qed.

(** ** The defaults *)

(** C6.  [DefaultConfig] takes no input and consults no world, so that any
    two uses of it are the same value.  That value is the fixed baseline:
    store type "pgsql", updater cron "@midnight" and not disabled, API port
    6060, health port 6061, timeout 900 seconds, notifier attempts 5,
    re-notify interval 2 hours (both durations within int64), and an empty
    pagination key. *)
Theorem DefaultConfig_baseline :
  database.Type_ (Database DefaultConfig) = "pgsql"
  /\ Updater DefaultConfig = Some {| Cron := "@midnight"; Disabled := false |}
  /\ Notifier DefaultConfig
     = Some {| notification.Attempts := 5;
               notification.RenotifyInterval := 2 * time.Hour |}
  /\ 2 * time.Hour = 7200 * time.Second
  /\ (exists api,
        API DefaultConfig = Some api
        /\ Port api = 6060 /\ HealthPort api = 6061
        /\ Timeout api = 900 * time.Second
        /\ Timeout api = 900 * 1000000000 * time.Nanosecond
        /\ fits_int (Timeout api) = true
        /\ PaginationKey api = ""
        /\ CertFile api = "" /\ KeyFile api = "" /\ CAFile api = "")
  /\ fits_int (2 * time.Hour) = true.
Proof.
  repeat split.
  eexists. split; [reflexivity|]. repeat split.
Qed.

(** ** Every way a call can end *)

(** The shape of every outcome for a non-empty path, by the step that
    ends the call. *)
Lemma LoadConfig_outcomes (w : World) (path : string) :
  path <> "" ->
  let name := ExpandEnv w path in
  let cfgFile := {| Clair := DefaultConfig |} in
  (exists msg, Open w name = fail msg
     /\ fst (LoadConfig w path) = Returned None (Some (PathError msg)))
  \/ (exists f msg, Open w name = ok f /\ ReadAll w f = fail msg
        /\ fst (LoadConfig w path) = Returned None (Some (ReadError msg)))
  \/ (exists f d out e, Open w name = ok f /\ ReadAll w f = ok d
        /\ Unmarshal w d cfgFile = (out, Some e)
        /\ fst (LoadConfig w path) = Returned None (Some e))
  \/ (exists f d out, Open w name = ok f /\ ReadAll w f = ok d
        /\ Unmarshal w d cfgFile = (out, None)
        /\ (API (Clair out) = None /\ fst (LoadConfig w path) = Panicked
            \/ exists api, API (Clair out) = Some api
                 /\ (PaginationKey api = ""
                     /\ (exists msg, Reader w = fail msg
                           /\ fst (LoadConfig w path)
                              = Returned (Some (Clair out)) (Some (randError msg)))
                     \/ PaginationKey api = ""
                        /\ (exists r, Reader w = ok r
                              /\ fst (LoadConfig w path)
                                 = Returned
                                     (Some (store_PaginationKey
                                              (fernet.Encode (fernet.fill r))
                                              (Clair out)))
                                     None)
                     \/ PaginationKey api <> ""
                        /\ (exists msg, DecodeKey w (PaginationKey api) = fail msg)
                        /\ fst (LoadConfig w path)
                           = Returned (Some (Clair out))
                               (Some (errorString
                                  "invalid Pagination key; must be 32-bit URL-safe base64"))
                     \/ PaginationKey api <> ""
                        /\ (exists k, DecodeKey w (PaginationKey api) = ok k)
                        /\ fst (LoadConfig w path)
                           = Returned (Some (Clair out)) None))).
Proof.
  intros Hpath name cfgFile.
  destruct (Open w name) as [f|msg] eqn:Ho.
  2:{ left. exists msg.
      now rewrite (LoadConfig_open_fails w path Hpath msg Ho). }
  destruct (ReadAll w f) as [d|msg] eqn:Hr.
  2:{ right; left. exists f, msg.
      now rewrite (LoadConfig_read_fails w path Hpath f msg Ho Hr). }
  destruct (Unmarshal w d cfgFile) as [out [e|]] eqn:Hu.
  { right; right; left. exists f, d, out, e.
    now rewrite (LoadConfig_unmarshal_fails w path Hpath f d out e Ho Hr Hu). }
  right; right; right. exists f, d, out. repeat split; trivial.
  rewrite (LoadConfig_parsed w path Hpath f d out Ho Hr Hu).
  destruct (API (Clair out)) as [api|]; [right; exists api; split; trivial | now left].
  destruct (String.eqb (PaginationKey api) "") eqn:Hkey.
  - apply String.eqb_eq in Hkey. destruct (Reader w) as [r|msg].
    + right; left. split; trivial. now exists r.
    + left. split; trivial. now exists msg.
  - apply String.eqb_neq in Hkey.
    destruct (DecodeKey w (PaginationKey api)) as [k|msg].
    + do 3 right. repeat split; trivial. now exists k.
    + do 2 right; left. repeat split; trivial. now exists msg.
Qed.

(** A nil error is returned exactly when every step succeeds. *)
Lemma LoadConfig_succeeds_iff (w : World) (path : string) :
  path <> "" ->
  ((exists cfg, fst (LoadConfig w path) = Returned cfg None)
   <-> exists f d out api,
         Open w (ExpandEnv w path) = ok f /\ ReadAll w f = ok d
         /\ Unmarshal w d {| Clair := DefaultConfig |} = (out, None)
         /\ API (Clair out) = Some api
         /\ (PaginationKey api = "" /\ (exists r, Reader w = ok r)
             \/ PaginationKey api <> ""
                /\ exists k, DecodeKey w (PaginationKey api) = ok k)).
Proof.
  intros Hp. split.
  - intros (cfg & Hcfg).
    destruct (LoadConfig_outcomes w path Hp)
      as [(msg & _ & H) | [(f & msg & _ & _ & H)
         | [(f & d & out & e & _ & _ & _ & H)
         | (f & d & out & Ho & Hr & Hu & [[_ H] | (api & Hapi & H)])]]];
      try (rewrite H in Hcfg; discriminate).
    exists f, d, out, api. repeat split; trivial.
    destruct H as [(_ & msg & _ & H) | [(Hk & r & Hrd & _)
         | [(_ & _ & H) | (Hk & Hdec & _)]]];
      try (rewrite H in Hcfg; discriminate).
    + left. split; trivial. now exists r.
    + right. now split.
  - intros (f & d & out & api & Ho & Hr & Hu & Hapi & Hkey).
    rewrite (LoadConfig_parsed w path Hp f d out Ho Hr Hu), Hapi.
    destruct Hkey as [(-> & r & ->) | (Hk & k & Hdec)].
    + now eexists.
    + apply String.eqb_neq in Hk. rewrite Hk, Hdec. now eexists.
Qed.

(** ** Failures *)


(** C10.  For a non-empty path: when [LoadConfig] fails on the open, on the
    read or on the decoding, the config pointer it returns is nil; when it
    fails in the pagination-key step, because the supplied key does not
    decode or because the generation of a key fails, it returns the parsed
    config, a non-nil pointer, together with the non-nil error. *)
Theorem LoadConfig_config_on_failure (w : World) (path : string) :
  path <> "" ->
  let name := ExpandEnv w path in
  let cfgFile := {| Clair := DefaultConfig |} in
  (forall msg,
     Open w name = fail msg ->
     exists e, fst (LoadConfig w path) = Returned None (Some e))
  /\ (forall f msg,
        Open w name = ok f -> ReadAll w f = fail msg ->
        exists e, fst (LoadConfig w path) = Returned None (Some e))
  /\ (forall f d out e,
        Open w name = ok f -> ReadAll w f = ok d ->
        Unmarshal w d cfgFile = (out, Some e) ->
        fst (LoadConfig w path) = Returned None (Some e))
  /\ (forall f d out api msg,
        Open w name = ok f -> ReadAll w f = ok d ->
        Unmarshal w d cfgFile = (out, None) ->
        API (Clair out) = Some api ->
        PaginationKey api <> "" ->
        DecodeKey w (PaginationKey api) = fail msg ->
        exists e, fst (LoadConfig w path) = Returned (Some (Clair out)) (Some e))
  /\ (forall f d out api msg,
        Open w name = ok f -> ReadAll w f = ok d ->
        Unmarshal w d cfgFile = (out, None) ->
        API (Clair out) = Some api ->
        PaginationKey api = "" ->
        Reader w = fail msg ->
        fst (LoadConfig w path)
        = Returned (Some (Clair out)) (Some (randError msg))).
Proof.
  intros Hpath name cfgFile. repeat apply conj.
  - intros msg Ho. rewrite (LoadConfig_open_fails w path Hpath msg Ho).
    now eexists.
  - intros f msg Ho Hr. rewrite (LoadConfig_read_fails w path Hpath f msg Ho Hr).
    now eexists.
  - intros f d out e Ho Hr Hu.
    now rewrite (LoadConfig_unmarshal_fails w path Hpath f d out e Ho Hr Hu).
  - intros f d out api msg Ho Hr Hu Hapi Hkey Hdec.
    rewrite (LoadConfig_parsed w path Hpath f d out Ho Hr Hu), Hapi.
    apply String.eqb_neq in Hkey. rewrite Hkey, Hdec. now eexists.
  - intros f d out api msg Ho Hr Hu Hapi Hkey Hrand.
    rewrite (LoadConfig_parsed w path Hpath f d out Ho Hr Hu), Hapi.
    now rewrite Hkey, Hrand.
Qed.

(** C7.  [LoadConfig] never returns [ErrDatasourceNotLoaded], for any world
    and any path.  Nor does it look for a database source before it
    succeeds: for the empty path it succeeds with a config that holds no
    connection parameter at all, and for a non-empty path it succeeds
    exactly when the open, the read, the decoding and the pagination-key
    step succeed, whatever the database block holds. *)
Theorem LoadConfig_never_ErrDatasourceNotLoaded (w : World) (path : string) :
  (forall cfg, fst (LoadConfig w path) <> Returned cfg (Some ErrDatasourceNotLoaded))
  /\ (exists cfg,
        fst (LoadConfig w "") = Returned (Some cfg) None
        /\ database.Params (Database cfg) = [])
  /\ (path <> "" ->
      ((exists cfg, fst (LoadConfig w path) = Returned cfg None)
       <-> exists f d out api,
             Open w (ExpandEnv w path) = ok f /\ ReadAll w f = ok d
             /\ Unmarshal w d {| Clair := DefaultConfig |} = (out, None)
             /\ API (Clair out) = Some api
             /\ (PaginationKey api = "" /\ (exists r, Reader w = ok r)
                 \/ PaginationKey api <> ""
                    /\ exists k, DecodeKey w (PaginationKey api) = ok k))).
Proof.
  repeat apply conj.
  - intros cfg. destruct (String.eqb path "") eqn:Hp.
    + apply String.eqb_eq in Hp; subst path. discriminate.
    + apply String.eqb_neq in Hp.
      destruct (LoadConfig_outcomes w path Hp)
        as [(msg & _ & ->) | [(f & msg & _ & _ & ->)
           | [(f & d & out & e & _ & _ & Hu & ->)
           | (f & d & out & _ & _ & _ & [[_ ->] | (api & _ & H)])]]];
        try discriminate.
      * apply Unmarshal_error in Hu. intros H; inversion H; subst e.
        discriminate.
      * destruct H as [(_ & msg & _ & ->) | [(_ & r & _ & ->)
           | [(_ & _ & ->) | (_ & _ & ->)]]]; discriminate.
  - now exists DefaultConfig.
  - apply LoadConfig_succeeds_iff.
Qed.

(** ** The pagination key *)

(** What the library's decoder accepts: a text that decodes to 32 bytes,
    as hexadecimal, as standard base64 or as URL-safe base64. *)
Lemma fernet_DecodeKey_ok (s : string) (k : fernet.Key) :
  fernet_DecodeKey s = ok k ->
  List.length k = fernet.KeyLen /\ encodes s k.
Proof.
  unfold fernet_DecodeKey, encodes.
  destruct (Nat.eqb (String.length s) (hex.EncodedLen fernet.KeyLen)).
  - destruct (hex.DecodeString s) as [b|]; [|discriminate].
    destruct (Nat.eqb (List.length b) fernet.KeyLen) eqn:Hlen; [|discriminate].
    intros H; inversion H; subst b. apply Nat.eqb_eq in Hlen. now split; [|left].
  - destruct (base64go.StdEncoding_DecodeString s) as [b|].
    + destruct (Nat.eqb (List.length b) fernet.KeyLen) eqn:Hlen; [|discriminate].
      intros H; inversion H; subst b. apply Nat.eqb_eq in Hlen.
      split; [exact Hlen | right; now left].
    + destruct (base64go.URLEncoding_DecodeString s) as [b|]; [|discriminate].
      destruct (Nat.eqb (List.length b) fernet.KeyLen) eqn:Hlen; [|discriminate].
      intros H; inversion H; subst b. apply Nat.eqb_eq in Hlen.
      split; [exact Hlen | right; now right].
Qed.

(** C1, as amended.  With the decoder of the fernet library for keys, for
    every call with a non-empty path that returns with no error, the
    pagination key of the returned config is not empty and is a valid
    32-byte key: either the key the document supplied, returned as
    parsed, which decodes to 32 bytes in one of the forms the decoder
    takes (hexadecimal, standard base64, URL-safe base64), or, when the
    parsed key was empty, the URL-safe base64 encoding of 32 freshly
    generated bytes, stored into the parsed config before return. *)
Theorem LoadConfig_pagination_key (w : World) (path : string) (cfg : Config) :
  (forall s, DecodeKey w s = fernet_DecodeKey s) ->
  path <> "" ->
  fst (LoadConfig w path) = Returned (Some cfg) None ->
  exists f d out parsed api,
    Open w (ExpandEnv w path) = ok f /\ ReadAll w f = ok d
    /\ Unmarshal w d {| Clair := DefaultConfig |} = (out, None)
    /\ API (Clair out) = Some parsed
    /\ API cfg = Some api
    /\ PaginationKey api <> ""
    /\ (PaginationKey parsed <> ""
        /\ cfg = Clair out
        /\ PaginationKey api = PaginationKey parsed
        /\ (exists k,
              DecodeKey w (PaginationKey api) = ok k
              /\ List.length k = fernet.KeyLen
              /\ encodes (PaginationKey api) k)
        \/ PaginationKey parsed = ""
           /\ (exists r,
                 Reader w = ok r
                 /\ PaginationKey api = fernet.Encode (fernet.fill r)
                 /\ List.length (fernet.fill r) = fernet.KeyLen
                 /\ cfg = store_PaginationKey (fernet.Encode (fernet.fill r))
                            (Clair out))
           /\ valid_pagination_key (PaginationKey api) = true).
Proof.
  intros Hlib Hp Hcfg.
  destruct (LoadConfig_outcomes w path Hp)
    as [(msg & _ & H) | [(f & msg & _ & _ & H)
       | [(f & d & out & e & _ & _ & _ & H)
       | (f & d & out & Ho & Hr & Hu & [[_ H] | (parsed & Hapi & H)])]]];
    try (rewrite H in Hcfg; discriminate).
  destruct H as [(_ & msg & _ & H) | [(Hk & r & Hrd & H)
       | [(_ & _ & H) | (Hk & Hdec & H)]]];
    try (rewrite H in Hcfg; discriminate).
  - rewrite H in Hcfg. inversion Hcfg as [Hc]. clear Hcfg.
    exists f, d, out, parsed,
      (set_PaginationKey (fernet.Encode (fernet.fill r)) parsed).
    split; [exact Ho|]. split; [exact Hr|]. split; [exact Hu|].
    split; [exact Hapi|]. split.
    { cbn [store_PaginationKey API]. now rewrite Hapi. }
    split; [apply generated_key_nonempty|].
    right. split; [exact Hk|]. split.
    + exists r. split; [exact Hrd|]. split; [reflexivity|]. split.
      * unfold fernet.fill. now rewrite length_map, length_seq.
      * reflexivity.
    + apply generated_key_valid.
  - rewrite H in Hcfg. inversion Hcfg as [Hc]. clear Hcfg.
    exists f, d, out, parsed, parsed.
    split; [exact Ho|]. split; [exact Hr|]. split; [exact Hu|].
    split; [exact Hapi|]. split; [exact Hapi|]. split; [exact Hk|].
    left. split; [exact Hk|]. split; [reflexivity|]. split; [reflexivity|].
    destruct Hdec as [k Hdec]. exists k. split; [exact Hdec|].
    rewrite Hlib in Hdec. now apply fernet_DecodeKey_ok.
Qed.

(** C4, as amended.  For a non-empty path and a document that decodes to a
    config whose pagination key is present and not empty, when
    [fernet.DecodeKey] rejects the key [LoadConfig] stops there: it reads
    no random bytes, and returns (with the parsed config) a new error, a
    [ValidationError], in place of the decoder's, with a fixed message
    that begins "invalid Pagination key" -- the text of line 113. *)
Theorem LoadConfig_rejected_key (w : World) (path : string)
  (f : os.File) (d : list byte) (out : File) (api : APIConfig) (msg : string) :
  path <> "" ->
  Open w (ExpandEnv w path) = ok f -> ReadAll w f = ok d ->
  Unmarshal w d {| Clair := DefaultConfig |} = (out, None) ->
  API (Clair out) = Some api ->
  PaginationKey api <> "" ->
  DecodeKey w (PaginationKey api) = fail msg ->
  exists e,
    LoadConfig w path
    = (Returned (Some (Clair out)) (Some e),
       [EvOpen (ExpandEnv w path); EvReadAll f; EvClose f])
    /\ ValidationError e = true
    /\ String.prefix "invalid Pagination key" (Error e) = true
    /\ Error e = "invalid Pagination key; must be 32-bit URL-safe base64".
Proof.
  intros Hp Ho Hr Hu Hapi Hk Hdec.
  rewrite (LoadConfig_parsed w path Hp f d out Ho Hr Hu), Hapi.
  apply String.eqb_neq in Hk. rewrite Hk, Hdec.
  eexists. split; [reflexivity|]. now repeat split.
Qed.

(** ** The overlay of the document on the defaults *)

Lemma set_PaginationKey_same (a : APIConfig) :
  set_PaginationKey (PaginationKey a) a = a.
Proof. now destruct a. Qed.

(** The overlay, read off its definition: a nested block the document
    leaves out keeps what was in place, whole; in a block the document
    gives, a field it names takes the document's value and a field it
    leaves out keeps what was in place. *)
Lemma overlay_absent_block (w : World) (kvs : list (string * yaml.node))
  (c : Config) :
  (assoc "database" kvs = None -> Database (overlay_Config w kvs c) = Database c)
  /\ (assoc "updater" kvs = None -> Updater (overlay_Config w kvs c) = Updater c)
  /\ (assoc "notifier" kvs = None ->
      Notifier (overlay_Config w kvs c) = Notifier c)
  /\ (assoc "api" kvs = None -> API (overlay_Config w kvs c) = API c).
Proof.
  unfold overlay_Config, nested. cbn.
  repeat split; intros H; now rewrite H.
Qed.

Lemma overlay_partial_block (w : World) (kvs fields : list (string * yaml.node))
  (c : Config) (a : APIConfig) :
  assoc "api" kvs = Some (yaml.mappingNode fields) ->
  API c = Some a ->
  exists a',
    API (overlay_Config w kvs c) = Some a'
    /\ (forall n, assoc "port" fields = Some n -> Port a' = read_int n)
    /\ (assoc "port" fields = None -> Port a' = Port a)
    /\ (assoc "healthport" fields = None -> HealthPort a' = HealthPort a)
    /\ (assoc "timeout" fields = None -> Timeout a' = Timeout a)
    /\ (assoc "paginationkey" fields = None ->
        PaginationKey a' = PaginationKey a)
    /\ (assoc "certfile" fields = None -> CertFile a' = CertFile a)
    /\ (assoc "keyfile" fields = None -> KeyFile a' = KeyFile a)
    /\ (assoc "cafile" fields = None -> CAFile a' = CAFile a).
Proof.
  intros Hk Ha. exists (overlay_APIConfig w fields a). split.
  - unfold overlay_Config, nested, onto. cbn. now rewrite Hk, Ha.
  - unfold overlay_APIConfig, present. cbn.
    repeat split; intros; now rewrite H.
Qed.

(** Overlaid on the defaults, a document leaves the API block in place. *)
Lemma overlay_File_API (w : World) (doc : yaml.node) :
  exists oapi, API (overlay_File w doc DefaultConfig) = Some oapi.
Proof.
  destruct doc as [value r | top | items]; try (now eexists).
  cbn [overlay_File]. unfold nested.
  destruct (assoc "clair" top) as [[value r | kvs | items]|]; try (now eexists).
  cbn [overlay_Config API]. unfold nested.
  destruct (assoc "api" kvs) as [[value r | fields | items]|]; now eexists.
Qed.

(** For a well-formed document the call returns a config: the overlay of
    the document on the defaults, with the pagination key settled. *)
Lemma LoadConfig_well_formed (w : World) (path : string)
  (f : os.File) (d : list byte) (doc : yaml.node) :
  path <> "" ->
  Open w (ExpandEnv w path) = ok f -> ReadAll w f = ok d ->
  parse w d = ok (Some doc) ->
  well_formed w doc = true ->
  let ov := overlay_File w doc DefaultConfig in
  exists cfg err oapi key,
    fst (LoadConfig w path) = Returned (Some cfg) err
    /\ Database cfg = Database ov
    /\ Updater cfg = Updater ov
    /\ Notifier cfg = Notifier ov
    /\ API ov = Some oapi
    /\ API cfg = Some (set_PaginationKey key oapi)
    /\ (PaginationKey oapi <> "" -> key = PaginationKey oapi)
    /\ (forall r, PaginationKey oapi = "" -> Reader w = ok r ->
        key = fernet.Encode (fernet.fill r) /\ err = None)
    /\ (forall e, err = Some e -> ParseError e = false).
Proof.
  intros Hp Ho Hr Hparse Hwf ov.
  pose proof (Unmarshal_well_formed w d doc {| Clair := DefaultConfig |}
                Hparse Hwf) as Hu.
  cbn [Clair] in Hu. fold ov in Hu.
  destruct (overlay_File_API w doc) as [oapi Hapi]. fold ov in Hapi.
  pose proof (LoadConfig_parsed w path Hp f d _ Ho Hr Hu) as HL.
  cbn [Clair] in HL. rewrite Hapi in HL.
  destruct (String.eqb (PaginationKey oapi) "") eqn:Hk.
  - apply String.eqb_eq in Hk. destruct (Reader w) as [r|msg] eqn:Hrd.
    + exists (store_PaginationKey (fernet.Encode (fernet.fill r)) ov), None,
        oapi, (fernet.Encode (fernet.fill r)).
      assert (HA : API (store_PaginationKey (fernet.Encode (fernet.fill r)) ov)
                   = Some (set_PaginationKey (fernet.Encode (fernet.fill r)) oapi)).
      { cbn [store_PaginationKey API]. now rewrite Hapi. }
      rewrite HL.
      split; [reflexivity|]. split; [reflexivity|]. split; [reflexivity|].
      split; [reflexivity|]. split; [exact Hapi|]. split; [exact HA|].
      split; [congruence|]. split.
      * intros r' _ Hr'. inversion Hr'. now split.
      * discriminate.
    + exists ov, (Some (randError msg)), oapi, (PaginationKey oapi).
      rewrite HL, set_PaginationKey_same.
      split; [reflexivity|]. split; [reflexivity|]. split; [reflexivity|].
      split; [reflexivity|]. split; [exact Hapi|]. split; [exact Hapi|].
      split; [reflexivity|]. split.
      * intros r' _ Hr'. discriminate Hr'.
      * intros e He. now inversion He.
  - apply String.eqb_neq in Hk.
    exists ov,
      (match DecodeKey w (PaginationKey oapi) with
       | ok _ => None
       | fail _ =>
           Some (errorString
                   "invalid Pagination key; must be 32-bit URL-safe base64")
       end), oapi, (PaginationKey oapi).
    rewrite HL, set_PaginationKey_same.
    split; [now destruct (DecodeKey w (PaginationKey oapi))|].
    split; [reflexivity|]. split; [reflexivity|].
    split; [reflexivity|]. split; [exact Hapi|]. split; [exact Hapi|].
    split; [reflexivity|]. split.
    + intros r' Hk'. contradiction.
    + intros e He. destruct (DecodeKey w (PaginationKey oapi)); now inversion He.
Qed.

(** C3, as amended.  For a non-empty path and a well-formed document, the
    returned config is the overlay of the document on [DefaultConfig] --
    a field the document names takes the document's value, a nested block
    the document leaves out keeps the whole default, a nested block it
    gives in part keeps the default in the fields it does not name -- in
    every field but [API.PaginationKey], which holds the document's key
    when it gives one and a freshly generated key when it gives none.  In
    particular, for the document that overrides only [api.port], the
    config has that port and the default in every other field except the
    pagination key. *)
Theorem LoadConfig_overlays_defaults (w : World) (path : string)
  (f : os.File) (d : list byte) (doc : yaml.node) :
  path <> "" ->
  Open w (ExpandEnv w path) = ok f -> ReadAll w f = ok d ->
  parse w d = ok (Some doc) ->
  well_formed w doc = true ->
  let ov := overlay_File w doc DefaultConfig in
  exists cfg err oapi key,
    fst (LoadConfig w path) = Returned (Some cfg) err
    /\ Database cfg = Database ov
    /\ Updater cfg = Updater ov
    /\ Notifier cfg = Notifier ov
    /\ API ov = Some oapi
    /\ API cfg = Some (set_PaginationKey key oapi)
    /\ (PaginationKey oapi <> "" -> key = PaginationKey oapi)
    /\ (forall r, PaginationKey oapi = "" -> Reader w = ok r ->
        key = fernet.Encode (fernet.fill r) /\ err = None)
    /\ (forall value p,
          doc = port_only_doc value p ->
          Database cfg = Database DefaultConfig
          /\ Updater cfg = Updater DefaultConfig
          /\ Notifier cfg = Notifier DefaultConfig
          /\ exists dapi,
               API DefaultConfig = Some dapi
               /\ oapi = set_Port p dapi
               /\ API cfg = Some (set_PaginationKey key (set_Port p dapi))
               /\ PaginationKey oapi = "").
Proof.
  intros Hp Ho Hr Hparse Hwf ov.
  destruct (LoadConfig_well_formed w path f d doc Hp Ho Hr Hparse Hwf)
    as (cfg & err & oapi & key & HL & HD & HU & HN & Hapi & HA & Hk1 & Hk2 & _).
  fold ov in HD, HU, HN, Hapi.
  exists cfg, err, oapi, key.
  split; [exact HL|]. split; [exact HD|]. split; [exact HU|].
  split; [exact HN|]. split; [exact Hapi|]. split; [exact HA|].
  split; [exact Hk1|]. split; [exact Hk2|].
  intros value p ->. subst ov.
  rewrite HD, HU, HN, HA. cbn in Hapi. inversion Hapi; subst oapi.
  split; [reflexivity|]. split; [reflexivity|]. split; [reflexivity|].
  eexists. split; [reflexivity|]. now repeat split.
Qed.

(** C9.  For a non-empty path and a well-formed document whose api block
    gives [timeout] as a duration string, the document is decoded without
    a parse error, a config is returned, and its [API.Timeout] is the
    duration [time.ParseDuration] reads in that string. *)
Theorem LoadConfig_timeout (w : World) (path : string)
  (f : os.File) (d : list byte) (doc : yaml.node)
  (s : string) (dur : time.Duration) :
  path <> "" ->
  Open w (ExpandEnv w path) = ok f -> ReadAll w f = ok d ->
  parse w d = ok (Some doc) ->
  well_formed w doc = true ->
  at_path ["clair"; "api"; "timeout"] doc = Some (yaml.scalarNode s yaml.RStr) ->
  ParseDuration w s = Some dur ->
  exists cfg err api,
    fst (LoadConfig w path) = Returned (Some cfg) err
    /\ (forall e, err = Some e -> ParseError e = false)
    /\ API cfg = Some api
    /\ Timeout api = dur.
Proof.
  intros Hp Ho Hr Hparse Hwf Hat Hdur.
  destruct (LoadConfig_well_formed w path f d doc Hp Ho Hr Hparse Hwf)
    as (cfg & err & oapi & key & HL & _ & _ & _ & Hapi & HA & _ & _ & Herr).
  exists cfg, err, (set_PaginationKey key oapi).
  split; [exact HL|]. split; [exact Herr|]. split; [exact HA|].
  cbn [set_PaginationKey Timeout].
  destruct doc as [value r | top | items]; try discriminate.
  cbn [at_path] in Hat. cbn [overlay_File] in Hapi. unfold nested in Hapi.
  destruct (assoc "clair" top) as [[value r | kvs | items]|];
    try discriminate.
  destruct (assoc "api" kvs) as [[value r | fields | items]|] eqn:Hk;
    try discriminate.
  cbn [overlay_Config API] in Hapi. unfold nested, onto in Hapi.
  rewrite Hk in Hapi. inversion Hapi; subst oapi.
  destruct (assoc "timeout" fields) as [n|] eqn:Ht; [|discriminate].
  inversion Hat; subst n.
  cbn [overlay_APIConfig Timeout]. unfold present. rewrite Ht.
  cbn [read_Duration]. now rewrite Hdur.
Qed.

(** ** The blocks held by pointer *)







(* ================================================================= *)
(** * Part V: the claims on concrete inputs *)

(** ** Where the specification and the code part *)

(** C1, as stated, fails twice.  On the empty path the call returns with
    no error and the pagination key of the returned config is the empty
    string, which is no encoding of 32 bytes.  And on a non-empty path,
    with the library's decoder, a key the document writes in hexadecimal
    is accepted and returned as it is, with no error: 64 characters that
    are not the URL-safe base64 encoding of 32 bytes. *)
Lemma returned_key_not_valid :
  (fst (LoadConfig Examples.full "") = Returned (Some DefaultConfig) None
   /\ option_map PaginationKey (API DefaultConfig) = Some ""
   /\ valid_pagination_key "" = false)
  /\ (exists cfg,
        fst (LoadConfig FernetExamples.hex_key Examples.path)
        = Returned (Some cfg) None
        /\ option_map PaginationKey (API cfg) = Some FernetExamples.hex_text
        /\ valid_pagination_key FernetExamples.hex_text = false
        /\ base64go.URLEncoding_DecodeString FernetExamples.hex_text
           <> Some (fernet.fill (fun i => base64.to_byte (N.of_nat i)))
        /\ hex.DecodeString FernetExamples.hex_text
           = Some (fernet.fill (fun i => base64.to_byte (N.of_nat i)))).
Proof.
  split; [repeat split|].
  eexists. split; [vm_compute; reflexivity|].
  split; [reflexivity|]. split; [vm_compute; reflexivity|].
  split; [vm_compute; discriminate | vm_compute; reflexivity].
Qed.

(** C3, as stated, fails on the document that overrides only [api.port]:
    the returned config has the port, but its pagination key is the
    generated key, not the default's empty key. *)
Lemma port_only_changes_pagination_key :
  parse Examples.port_only (list_byte_of_string Examples.port_only_text)
  = ok (Some (port_only_doc "8080" 8080))
  /\ well_formed Examples.port_only (port_only_doc "8080" 8080) = true
  /\ exists cfg api dapi,
       fst (LoadConfig Examples.port_only Examples.path)
       = Returned (Some cfg) None
       /\ API cfg = Some api /\ API DefaultConfig = Some dapi
       /\ Port api = 8080
       /\ PaginationKey api = "CzBVep_E6Q4zWH2ix-wRNluApcrvFDleg6jN8hc8YYY="
       /\ PaginationKey dapi = ""
       /\ PaginationKey api <> PaginationKey dapi.
Proof.
  split; [reflexivity|]. split; [reflexivity|].
  eexists _, _, _. split; [vm_compute; reflexivity|].
  split; [reflexivity|]. split; [reflexivity|].
  split; [reflexivity|]. split; [reflexivity|]. split; [reflexivity|].
  discriminate.
Qed.

(** C4, as stated, fails on the document of its own example: the key
    "not-valid-base64!!" is rejected, and the message of the error that
    is returned is not the one the claim gives. *)
Lemma bad_key_message :
  exists cfg e,
    fst (LoadConfig Examples.bad_key Examples.path)
    = Returned (Some cfg) (Some e)
    /\ option_map PaginationKey (API cfg) = Some "not-valid-base64!!"
    /\ valid_pagination_key "not-valid-base64!!" = false
    /\ Error e = "invalid Pagination key; must be 32-bit URL-safe base64"
    /\ Error e <> "invalid pagination key; must be 32-byte URL-safe base64".
Proof.
  eexists _, _. split; [vm_compute; reflexivity|].
  split; [reflexivity|]. split; [reflexivity|]. split; [reflexivity|].
  discriminate.
Qed.


(** A document that gives the api block the null value ends the call in a
    panic, after the file is closed. *)
Lemma null_api_panics :
  LoadConfig Examples.null_api Examples.path
  = (Panicked, [EvOpen Examples.path; EvReadAll 3%nat; EvClose 3%nat]).
Proof. reflexivity. Qed.

(** ** The theorems at work *)

(** The key of [full] is the document's own: 32 bytes in base64. *)
Lemma LoadConfig_pagination_key_witness :
  (forall s, DecodeKey FernetExamples.full s = fernet_DecodeKey s)
  /\ Examples.path <> ""
  /\ fst (LoadConfig FernetExamples.full Examples.path)
     = Returned (Some Examples.full_config) None
  /\ exists api,
       API Examples.full_config = Some api
       /\ PaginationKey api <> ""
       /\ exists k,
            DecodeKey FernetExamples.full (PaginationKey api) = ok k
            /\ List.length k = fernet.KeyLen
            /\ encodes (PaginationKey api) k.
Proof.
  assert (Hlib : forall s, DecodeKey FernetExamples.full s = fernet_DecodeKey s)
    by reflexivity.
  assert (Hp : Examples.path <> "") by discriminate.
  assert (HL : fst (LoadConfig FernetExamples.full Examples.path)
               = Returned (Some Examples.full_config) None)
    by (vm_compute; reflexivity).
  split; [exact Hlib|]. split; [exact Hp|]. split; [exact HL|].
  destruct (LoadConfig_pagination_key FernetExamples.full Examples.path
              Examples.full_config Hlib Hp HL)
    as (f & d & out & parsed & api & _ & _ & _ & _ & Hapi & Hne & Hkey).
  exists api. split; [exact Hapi|]. split; [exact Hne|].
  destruct Hkey as [(_ & _ & _ & Hk) | (_ & (r & Hrd & Hgen & _) & _)].
  - exact Hk.
  - exfalso. cbn in Hapi. inversion Hapi; subst api.
    cbn in Hrd. inversion Hrd; subst r.
    vm_compute in Hgen. discriminate Hgen.
Defined.

(** The port-only document: the port, the defaults, a generated key. *)
Lemma LoadConfig_overlays_defaults_witness :
  Examples.path <> ""
  /\ Open Examples.port_only (ExpandEnv Examples.port_only Examples.path)
     = ok 3%nat
  /\ ReadAll Examples.port_only 3%nat
     = ok (list_byte_of_string Examples.port_only_text)
  /\ parse Examples.port_only (list_byte_of_string Examples.port_only_text)
     = ok (Some (port_only_doc "8080" 8080))
  /\ well_formed Examples.port_only (port_only_doc "8080" 8080) = true
  /\ exists cfg key dapi,
       fst (LoadConfig Examples.port_only Examples.path)
       = Returned (Some cfg) None
       /\ Database cfg = Database DefaultConfig
       /\ Updater cfg = Updater DefaultConfig
       /\ Notifier cfg = Notifier DefaultConfig
       /\ API DefaultConfig = Some dapi
       /\ API cfg = Some (set_PaginationKey key (set_Port 8080 dapi))
       /\ key = Examples.generated_key.
Proof.
  assert (Hp : Examples.path <> "") by discriminate.
  split; [exact Hp|]. split; [reflexivity|]. split; [reflexivity|].
  split; [reflexivity|]. split; [reflexivity|].
  destruct (LoadConfig_overlays_defaults Examples.port_only Examples.path
              3%nat (list_byte_of_string Examples.port_only_text)
              (port_only_doc "8080" 8080) Hp eq_refl eq_refl eq_refl eq_refl)
    as (cfg & err & oapi & key & HL & _ & _ & _ & _ & _ & _ & Hgen & Hport).
  destruct (Hport "8080" 8080 eq_refl)
    as (HD & HU & HN & dapi & Hd & Hov & HA & Hk).
  destruct (Hgen Examples.random Hk eq_refl) as [Hkey Herr].
  exists cfg, key, dapi. rewrite Herr in HL.
  split; [exact HL|]. split; [exact HD|]. split; [exact HU|].
  split; [exact HN|]. split; [exact Hd|]. split; [exact HA|]. exact Hkey.
Defined.

(** The key that is no base64 text is rejected. *)
Lemma LoadConfig_rejected_key_witness :
  Examples.path <> ""
  /\ DecodeKey Examples.bad_key "not-valid-base64!!" = fail "illegal base64 data"
  /\ exists cfg e,
       LoadConfig Examples.bad_key Examples.path
       = (Returned (Some cfg) (Some e),
          [EvOpen Examples.path; EvReadAll 3%nat; EvClose 3%nat])
       /\ ValidationError e = true
       /\ String.prefix "invalid Pagination key" (Error e) = true.
Proof.
  assert (Hp : Examples.path <> "") by discriminate.
  split; [exact Hp|]. split; [reflexivity|].
  destruct (LoadConfig_rejected_key Examples.bad_key Examples.path 3%nat
              (list_byte_of_string Examples.bad_key_text)
              {| Clair :=
                   store_PaginationKey "not-valid-base64!!" DefaultConfig |}
              (set_PaginationKey "not-valid-base64!!"
                 {| Port := 6060; HealthPort := 6061;
                    Timeout := 900 * time.Second; PaginationKey := "";
                    CertFile := ""; KeyFile := ""; CAFile := "" |})
              "illegal base64 data"
              Hp eq_refl eq_refl eq_refl eq_refl)
    as (e & HL & HV & HE & _); [discriminate | reflexivity |].
  eexists _, e. split; [exact HL|]. now split.
Defined.


(** Neither a success nor a failure of the key step is the sentinel. *)
Lemma LoadConfig_never_ErrDatasourceNotLoaded_witness :
  fst (LoadConfig Examples.full Examples.path)
  <> Returned (Some Examples.full_config) (Some ErrDatasourceNotLoaded)
  /\ fst (LoadConfig Examples.no_entropy Examples.path)
     <> Returned (Some DefaultConfig) (Some ErrDatasourceNotLoaded).
Proof.
  split.
  - apply (LoadConfig_never_ErrDatasourceNotLoaded Examples.full Examples.path).
  - apply (LoadConfig_never_ErrDatasourceNotLoaded Examples.no_entropy
             Examples.path).
Defined.


(** [full] sets the timeout to thirty seconds. *)
Lemma LoadConfig_timeout_witness :
  Examples.path <> ""
  /\ well_formed Examples.full Examples.full_doc = true
  /\ at_path ["clair"; "api"; "timeout"] Examples.full_doc
     = Some (yaml.scalarNode "30s" yaml.RStr)
  /\ ParseDuration Examples.full "30s" = Some (30 * time.Second)
  /\ exists cfg err api,
       fst (LoadConfig Examples.full Examples.path) = Returned (Some cfg) err
       /\ (forall e, err = Some e -> ParseError e = false)
       /\ API cfg = Some api
       /\ Timeout api = 30 * time.Second.
Proof.
  assert (Hp : Examples.path <> "") by discriminate.
  split; [exact Hp|]. split; [reflexivity|]. split; [reflexivity|].
  split; [reflexivity|].
  apply (LoadConfig_timeout Examples.full Examples.path 3%nat
           (list_byte_of_string Examples.full_text) Examples.full_doc
           "30s" (30 * time.Second) Hp);
    reflexivity.
Defined.

(** A failing random source leaves the parsed config in the result; a
    document of the wrong shape leaves none. *)
Lemma LoadConfig_config_on_failure_witness :
  Examples.path <> ""
  /\ Reader Examples.no_entropy = fail "unexpected EOF"
  /\ fst (LoadConfig Examples.no_entropy Examples.path)
     = Returned (Some DefaultConfig) (Some (randError "unexpected EOF"))
  /\ fst (LoadConfig Examples.wrong_shape Examples.path)
     = Returned None
         (Some (TypeError ["cannot unmarshal !!seq into config.Config"])).
Proof.
  assert (Hp : Examples.path <> "") by discriminate.
  split; [exact Hp|]. split; [reflexivity|]. split.
  - destruct (LoadConfig_config_on_failure Examples.no_entropy Examples.path
                Hp) as (_ & _ & _ & _ & Hrand).
    apply (Hrand 3%nat [] {| Clair := DefaultConfig |}
             {| Port := 6060; HealthPort := 6061;
                Timeout := 900 * time.Second; PaginationKey := "";
                CertFile := ""; KeyFile := ""; CAFile := "" |}
             "unexpected EOF");
      reflexivity.
  - destruct (LoadConfig_config_on_failure Examples.wrong_shape Examples.path
                Hp) as (_ & _ & Hparse & _).
    apply (Hparse 3%nat (list_byte_of_string "clair: [1, 2]
")
             {| Clair := DefaultConfig |}
             (TypeError ["cannot unmarshal !!seq into config.Config"]));
      reflexivity.
Defined.

(* ================================================================= *)
(** * Part VI: further properties of the loader *)

(** ** The file handle and the random source *)

(** The trace of a call on a non-empty path whose file opens, by the step
    that ends the call. *)
Lemma LoadConfig_trace (w : World) (path : string) (f : os.File) :
  path <> "" ->
  Open w (ExpandEnv w path) = ok f ->
  let name := ExpandEnv w path in
  let cfgFile := {| Clair := DefaultConfig |} in
  (snd (LoadConfig w path) = [EvOpen name; EvReadAll f; EvRandRead; EvClose f]
   /\ exists d out api,
        ReadAll w f = ok d /\ Unmarshal w d cfgFile = (out, None)
        /\ API (Clair out) = Some api /\ PaginationKey api = "")
  \/ (snd (LoadConfig w path) = [EvOpen name; EvReadAll f; EvClose f]
      /\ ~ exists d out api,
             ReadAll w f = ok d /\ Unmarshal w d cfgFile = (out, None)
             /\ API (Clair out) = Some api /\ PaginationKey api = "").
Proof.
  intros Hp Ho name cfgFile.
  destruct (ReadAll w f) as [d|msg] eqn:Hr.
  2:{ right. rewrite (LoadConfig_read_fails w path Hp f msg Ho Hr).
      split; [reflexivity|]. intros (d & out & api & H & _). discriminate H. }
  destruct (Unmarshal w d cfgFile) as [out [e|]] eqn:Hu.
  { right. rewrite (LoadConfig_unmarshal_fails w path Hp f d out e Ho Hr Hu).
    split; [reflexivity|].
    intros (d' & out' & api & H & Hu' & _).
    inversion H; subst d'. fold cfgFile in Hu'. rewrite Hu in Hu'.
    discriminate Hu'. }
  rewrite (LoadConfig_parsed w path Hp f d out Ho Hr Hu).
  destruct (API (Clair out)) as [api|] eqn:Hapi.
  2:{ right. split; [reflexivity|].
      intros (d' & out' & api & H & Hu' & Hapi' & _).
      inversion H; subst d'. fold cfgFile in Hu'. rewrite Hu in Hu'.
      inversion Hu'; subst out'. rewrite Hapi in Hapi'. discriminate Hapi'. }
  destruct (String.eqb (PaginationKey api) "") eqn:Hk.
  - apply String.eqb_eq in Hk. left. split.
    + now destruct (Reader w).
    + now exists d, out, api.
  - apply String.eqb_neq in Hk. right. split.
    + now destruct (DecodeKey w (PaginationKey api)).
    + intros (d' & out' & api' & H & Hu' & Hapi' & Hk').
      inversion H; subst d'. fold cfgFile in Hu'. rewrite Hu in Hu'.
      inversion Hu'; subst out'. rewrite Hapi in Hapi'.
      inversion Hapi'; subst api'. contradiction.
Qed.

(** X1.  On a non-empty path, the expanded name is opened once and nothing
    else is opened.  When the open fails, nothing more is done; when it
    succeeds, the handle is read once and closed once, the close being the
    last operation of the call however the call ends -- with a config,
    with an error, or in the panic on a nil API block. *)
Theorem LoadConfig_closes_what_it_opens (w : World) (path : string) :
  path <> "" ->
  let name := ExpandEnv w path in
  let ops := snd (LoadConfig w path) in
  (forall msg, Open w name = fail msg -> ops = [EvOpen name])
  /\ (forall f,
        Open w name = ok f ->
        exists mid,
          ops = EvOpen name :: mid ++ [EvClose f]
          /\ (mid = [EvReadAll f] \/ mid = [EvReadAll f; EvRandRead])).
Proof.
  intros Hp name ops. split.
  - intros msg Ho. unfold ops.
    now rewrite (LoadConfig_open_fails w path Hp msg Ho).
  - intros f Ho. unfold ops.
    destruct (LoadConfig_trace w path f Hp Ho) as [[-> _] | [-> _]].
    + exists [EvReadAll f; EvRandRead]. split; [reflexivity | now right].
    + exists [EvReadAll f]. split; [reflexivity | now left].
Qed.

(** X2.  The random source is read exactly when the call gets as far as a
    decoded config whose pagination key is empty: never for the empty
    path, never when the open, the read or the decoding fails, and never
    when the document supplies a key. *)
Theorem LoadConfig_reads_random_iff (w : World) (path : string) :
  In EvRandRead (snd (LoadConfig w path))
  <-> path <> ""
      /\ exists f d out api,
           Open w (ExpandEnv w path) = ok f /\ ReadAll w f = ok d
           /\ Unmarshal w d {| Clair := DefaultConfig |} = (out, None)
           /\ API (Clair out) = Some api /\ PaginationKey api = "".
Proof.
  destruct (String.eqb path "") eqn:Hp.
  { apply String.eqb_eq in Hp; subst path. cbn. split; [tauto|].
    intros [H _]. now apply H. }
  apply String.eqb_neq in Hp.
  destruct (Open w (ExpandEnv w path)) as [f|msg] eqn:Ho.
  2:{ rewrite (LoadConfig_open_fails w path Hp msg Ho). cbn. split.
      - intros [H|[]]. discriminate H.
      - intros (_ & f & d & out & api & H & _). discriminate H. }
  destruct (LoadConfig_trace w path f Hp Ho)
    as [[-> (d & out & api & H)] | [-> Hno]].
  - split.
    + intros _. split; [exact Hp|]. now exists f, d, out, api.
    + intros _. cbn. tauto.
  - split.
    + cbn. intros [H|[H|[H|[]]]]; discriminate H.
    + intros (_ & f' & d & out & api & H & Hrest). exfalso. apply Hno.
      inversion H; subst f'. now exists d, out, api.
Qed.

(** ** What the two results say about each other *)

(** X3.  Whenever [LoadConfig] returns, its config pointer is nil exactly
    when its error is an [IOError] or a [ParseError]; so a nil error
    always comes with a config, and so does a failure of the
    pagination-key step. *)
Theorem LoadConfig_nil_config_iff (w : World) (path : string)
  (cfg : option Config) (err : option error) :
  fst (LoadConfig w path) = Returned cfg err ->
  (cfg = None
   <-> exists e, err = Some e /\ (IOError e = true \/ ParseError e = true))
  /\ (err = None -> cfg <> None).
Proof.
  intros H.
  assert (Hiff : cfg = None
                 <-> exists e, err = Some e
                       /\ (IOError e = true \/ ParseError e = true)).
  { destruct (String.eqb path "") eqn:Hp.
    { apply String.eqb_eq in Hp; subst path. cbn in H.
      inversion H; subst. split; [discriminate|].
      intros (e & He & _). discriminate He. }
    apply String.eqb_neq in Hp.
    destruct (LoadConfig_outcomes w path Hp)
      as [(msg & _ & HL) | [(f & msg & _ & _ & HL)
         | [(f & d & out & e & _ & _ & Hu & HL)
         | (f & d & out & _ & _ & _ & [[_ HL] | (api & _ & HL)])]]].
    - rewrite HL in H. inversion H; subst. split; [|reflexivity].
      intros _. eexists. split; [reflexivity | now left].
    - rewrite HL in H. inversion H; subst. split; [|reflexivity].
      intros _. eexists. split; [reflexivity | now left].
    - rewrite HL in H. inversion H; subst. split; [|reflexivity].
      intros _. exists e. split; [reflexivity|]. right.
      exact (Unmarshal_error w d _ out e Hu).
    - rewrite HL in H. discriminate H.
    - destruct HL as [(_ & msg & _ & HL) | [(_ & r & _ & HL)
           | [(_ & _ & HL) | (_ & _ & HL)]]];
        rewrite HL in H; inversion H; subst;
        (split; [discriminate|]);
        intros (e & He & Hc); inversion He; subst e;
        destruct Hc as [Hc|Hc]; discriminate Hc. }
  split; [exact Hiff|].
  intros -> Hc. apply Hiff in Hc. destruct Hc as (e & He & _). discriminate He.
Qed.

(** ** Which documents leave a block nil *)










(** ** A file without the envelope *)

Lemma mappingStruct_File_no_clair (w : World)
  (top : list (string * yaml.node)) (f : File) :
  mem "clair" top = false ->
  yaml.mappingStruct (field_File w) top f = (f, []).
Proof.
  induction top as [|[k v] rest IH]; intros Hm; [reflexivity|].
  cbn [mem existsb fst] in Hm. apply orb_false_iff in Hm as [Hk Hrest].
  cbn [yaml.mappingStruct]. unfold field_File at 1. rewrite Hk.
  now rewrite (IH Hrest).
Qed.

(** X6.  An empty file, or a document with no [clair] entry, is no error:
    for a non-empty path [LoadConfig] then returns the defaults with a
    freshly generated pagination key in place of the empty one -- unlike
    the empty path, which returns the defaults with the key left empty --
    or, when the random source fails, the defaults as they are together
    with that failure. *)
Theorem LoadConfig_no_envelope (w : World) (path : string)
  (f : os.File) (d : list byte) :
  path <> "" ->
  Open w (ExpandEnv w path) = ok f -> ReadAll w f = ok d ->
  parse w d = ok None
  \/ (exists top,
        parse w d = ok (Some (yaml.mappingNode top))
        /\ mem "clair" top = false) ->
  (forall r,
     Reader w = ok r ->
     fst (LoadConfig w path)
     = Returned
         (Some (store_PaginationKey (fernet.Encode (fernet.fill r))
                  DefaultConfig))
         None
     /\ fst (LoadConfig w path) <> fst (LoadConfig w ""))
  /\ (forall msg,
        Reader w = fail msg ->
        fst (LoadConfig w path)
        = Returned (Some DefaultConfig) (Some (randError msg))).
Proof.
  intros Hp Ho Hr Hdoc.
  assert (Hu : Unmarshal w d {| Clair := DefaultConfig |}
               = ({| Clair := DefaultConfig |}, None)).
  { unfold Unmarshal. destruct Hdoc as [-> | (top & -> & Hm)]; [reflexivity|].
    cbn [yaml.unmarshal_struct].
    now rewrite (mappingStruct_File_no_clair w top _ Hm). }
  pose proof (LoadConfig_parsed w path Hp f d _ Ho Hr Hu) as HL.
  cbn [Clair API DefaultConfig PaginationKey String.eqb] in HL. split.
  - intros r Hrd. rewrite Hrd in HL. rewrite HL. cbn [fst]. split.
    + reflexivity.
    + change (fst (LoadConfig w "")) with (Returned (Some DefaultConfig) None).
      (* the two configs differ in their keys: one begins with a letter
         of the alphabet, the other is empty *)
      intros H. inversion H.
  - intros msg Hrd. rewrite Hrd in HL. now rewrite HL.
Qed.

(** ** A supplied key and the random source *)

Lemma Unmarshal_with_Reader (w : World) (r : res (nat -> byte))
  (d : list byte) (f : File) :
  Unmarshal (with_Reader r w) d f = Unmarshal w d f.
Proof. reflexivity. Qed.

(** X7.  When the document supplies a pagination key, the call does not
    depend on the random source: in any world that differs in that source
    only, it performs the same operations and returns the same config and
    the same error. *)
Theorem LoadConfig_supplied_key_ignores_random (w : World) (path : string)
  (f : os.File) (d : list byte) (out : File) (api : APIConfig)
  (r : res (nat -> byte)) :
  path <> "" ->
  Open w (ExpandEnv w path) = ok f -> ReadAll w f = ok d ->
  Unmarshal w d {| Clair := DefaultConfig |} = (out, None) ->
  API (Clair out) = Some api ->
  PaginationKey api <> "" ->
  LoadConfig (with_Reader r w) path = LoadConfig w path.
Proof.
  intros Hp Ho Hr Hu Hapi Hk.
  rewrite (LoadConfig_parsed w path Hp f d out Ho Hr Hu).
  rewrite (LoadConfig_parsed (with_Reader r w) path Hp f d out Ho Hr Hu).
  rewrite Hapi. apply String.eqb_neq in Hk. rewrite Hk. reflexivity.
Qed.

(** ** The further properties at work *)

(** The call that panics on a null api block still closes the file. *)
Lemma LoadConfig_closes_what_it_opens_witness :
  Examples.path <> ""
  /\ fst (LoadConfig Examples.null_api Examples.path) = Panicked
  /\ exists mid,
       snd (LoadConfig Examples.null_api Examples.path)
       = EvOpen Examples.path :: mid ++ [EvClose 3%nat]
       /\ (mid = [EvReadAll 3%nat] \/ mid = [EvReadAll 3%nat; EvRandRead]).
Proof.
  assert (Hp : Examples.path <> "") by discriminate.
  split; [exact Hp|]. split; [reflexivity|].
  destruct (LoadConfig_closes_what_it_opens Examples.null_api Examples.path Hp)
    as [_ H].
  apply (H 3%nat). reflexivity.
Defined.

(** The config of [full] comes with a nil error. *)
Lemma LoadConfig_nil_config_iff_witness :
  fst (LoadConfig Examples.full Examples.path)
  = Returned (Some Examples.full_config) None
  /\ Some Examples.full_config <> None
  /\ fst (LoadConfig Examples.malformed Examples.path)
     = Returned None
         (Some (yamlError "yaml: line 1: did not find expected ',' or ']'"))
  /\ exists e,
       Some (yamlError "yaml: line 1: did not find expected ',' or ']'")
       = Some e
       /\ (IOError e = true \/ ParseError e = true).
Proof.
  assert (H1 : fst (LoadConfig Examples.full Examples.path)
               = Returned (Some Examples.full_config) None)
    by (vm_compute; reflexivity).
  assert (H2 : fst (LoadConfig Examples.malformed Examples.path)
               = Returned None
                   (Some (yamlError
                      "yaml: line 1: did not find expected ',' or ']'")))
    by reflexivity.
  split; [exact H1|]. split.
  - apply (LoadConfig_nil_config_iff Examples.full Examples.path _ _ H1).
    reflexivity.
  - split; [exact H2|].
    apply (LoadConfig_nil_config_iff Examples.malformed Examples.path _ _ H2).
    reflexivity.
Defined.


(** The empty file: the defaults, with the generated key. *)
Lemma LoadConfig_no_envelope_witness :
  Examples.path <> ""
  /\ parse MoreExamples.empty_file (list_byte_of_string "") = ok None
  /\ fst (LoadConfig MoreExamples.empty_file Examples.path)
     = Returned
         (Some (store_PaginationKey Examples.generated_key DefaultConfig))
         None
  /\ fst (LoadConfig MoreExamples.unrelated Examples.path)
     = Returned
         (Some (store_PaginationKey Examples.generated_key DefaultConfig))
         None.
Proof.
  assert (Hp : Examples.path <> "") by discriminate.
  split; [exact Hp|]. split; [reflexivity|]. split.
  - destruct (LoadConfig_no_envelope MoreExamples.empty_file Examples.path
                3%nat (list_byte_of_string "") Hp eq_refl eq_refl
                (or_introl eq_refl)) as [H _].
    apply (H Examples.random eq_refl).
  - destruct (LoadConfig_no_envelope MoreExamples.unrelated Examples.path
                3%nat _ Hp eq_refl eq_refl
                (or_intror
                   (ex_intro _ [("logging",
                                 yaml.mappingNode
                                   [("level",
                                     yaml.scalarNode "debug" yaml.RStr)])]
                      (conj eq_refl eq_refl)))) as [H _].
    apply (H Examples.random eq_refl).
Defined.

(** [full] supplies its key: a failing random source changes nothing. *)
Lemma LoadConfig_supplied_key_ignores_random_witness :
  Examples.path <> ""
  /\ LoadConfig (with_Reader (fail "unexpected EOF") Examples.full)
       Examples.path
     = LoadConfig Examples.full Examples.path.
Proof.
  assert (Hp : Examples.path <> "") by discriminate.
  split; [exact Hp|].
  apply (LoadConfig_supplied_key_ignores_random Examples.full Examples.path
           3%nat (list_byte_of_string Examples.full_text)
           {| Clair := Examples.full_config |}
           {| Port := 6060; HealthPort := 6061; Timeout := 30 * time.Second;
              PaginationKey := "AAECAwQFBgcICQoLDA0ODxAREhMUFRYXGBkaGxwdHh8=";
              CertFile := ""; KeyFile := ""; CAFile := "" |}
           (fail "unexpected EOF") Hp);
    try reflexivity.
  discriminate.
Defined.

(** The port-only document gives no key, so the random source is read;
    [full] gives one, so it is not. *)
Lemma LoadConfig_reads_random_iff_witness :
  In EvRandRead (snd (LoadConfig Examples.port_only Examples.path))
  /\ ~ In EvRandRead (snd (LoadConfig Examples.full Examples.path)).
Proof.
  split.
  - apply (LoadConfig_reads_random_iff Examples.port_only Examples.path).
    split; [discriminate|].
    exists 3%nat, (list_byte_of_string Examples.port_only_text),
      {| Clair := overlay_File Examples.port_only (port_only_doc "8080" 8080)
                    DefaultConfig |},
      (set_Port 8080
         {| Port := 6060; HealthPort := 6061; Timeout := 900 * time.Second;
            PaginationKey := ""; CertFile := ""; KeyFile := ""; CAFile := "" |}).
    repeat split.
  - intros H.
    apply (LoadConfig_reads_random_iff Examples.full Examples.path) in H.
    destruct H as (_ & f & d & out & api & Ho & Hr & Hu & Hapi & Hk).
    cbn in Ho. inversion Ho; subst f. cbn in Hr. inversion Hr; subst d.
    vm_compute in Hu. inversion Hu; subst out.
    cbn in Hapi. inversion Hapi; subst api. discriminate Hk.
Defined.

